(** * music_production_project_manager: folder collection and audio file actions

    A shallow embedding of [music_production_project_manager/folder_handler.py]
    (class [FileList] and the helpers around it) together with the parts of
    the [AudioFile] class that [FileList] and the test-suite
    ([tests/test_audio_file_handler.py]) rely on.

    Python values are embedded as follows.
    - [str] is [string]; comparison of two [str] is [String.leb] (code points,
      lexicographic), truthiness is non-emptiness.
    - a [dict] with [str] keys is a [gmap string _].
    - the filesystem is a finite map from path names to nodes; every
      [os.path] function is written out for POSIX path names.
    - a call that may raise returns [option]; [None] stands for the raised
      exception. *)

From Stdlib Require Import Ascii String QArith Qabs.
From stdpp Require Import base gmap list strings pretty sorting.

Open Scope string_scope.
Open Scope list_scope.

(** ** Python strings *)

Module Py.

(** [bool(s)] for a [str]. *)
Definition truthy (s : string) : bool := negb (String.eqb s "").

(** [str(i)] for a non-negative [int]. *)
Definition str (i : nat) : string := pretty i.

(** [s.rstrip(c)] for a one-character [c]. *)
Fixpoint rstrip (c : ascii) (s : string) : string :=
  match s with
  | "" => ""
  | String a s' =>
      match rstrip c s' with
      | "" => if Ascii.eqb a c then "" else String a ""
      | r => String a r
      end
  end.

(** [s.startswith(c)] and [s.endswith(c)] for a one-character [c]. *)
Definition startswith (c : ascii) (s : string) : bool :=
  match s with
  | String a _ => Ascii.eqb a c
  | "" => false
  end.

Fixpoint endswith (c : ascii) (s : string) : bool :=
  match s with
  | "" => false
  | String a "" => Ascii.eqb a c
  | String _ s' => endswith c s'
  end.

(** [s.rpartition(c)] without the separator: [None] when [c] does not occur,
    otherwise the text before and after the last occurrence. *)
Fixpoint rpartition (c : ascii) (s : string) : option (string * string) :=
  match s with
  | "" => None
  | String a s' =>
      match rpartition c s' with
      | Some (h, t) => Some (String a h, t)
      | None => if Ascii.eqb a c then Some ("", s') else None
      end
  end.

(** [all(x == c for x in s)]. *)
Fixpoint all_char (c : ascii) (s : string) : bool :=
  match s with
  | "" => true
  | String a s' => Ascii.eqb a c && all_char c s'
  end.

(** [s.upper()] on ASCII letters. *)
Definition upper_char (a : ascii) : ascii :=
  let n := nat_of_ascii a in
  if (97 <=? n)%nat && (n <=? 122)%nat then ascii_of_nat (n - 32) else a.

Fixpoint upper (s : string) : string :=
  match s with
  | "" => ""
  | String a s' => String (upper_char a) (upper s')
  end.

(** [list(s)]: the one-character strings of [s]. *)
Fixpoint chars (s : string) : list string :=
  match s with
  | "" => []
  | String a s' => String a "" :: chars s'
  end.

(** [sorted(l, key=key)] for [str] keys: a stable sort, as Python's. *)
Fixpoint insert_by {A} (key : A → string) (x : A) (l : list A) : list A :=
  match l with
  | [] => [x]
  | y :: l' =>
      if String.leb (key x) (key y) then x :: y :: l' else y :: insert_by key x l'
  end.

Definition sorted {A} (key : A → string) (l : list A) : list A :=
  foldr (insert_by key) [] l.

End Py.

(** ** [os.path] on POSIX path names *)

Module os_path.

(** [os.path.join] of [a] and the further components [p]. *)
Definition join (a : string) (p : list string) : string :=
  foldl (λ path b,
           if Py.startswith "/" b then b
           else if negb (Py.truthy path) || Py.endswith "/" path then path +:+ b
           else path +:+ "/" +:+ b) a p.

(** [os.path.split(p)]. *)
Definition split (p : string) : string * string :=
  match Py.rpartition "/" p with
  | None => ("", p)
  | Some (h, t) =>
      let head := h +:+ "/" in
      (if Py.all_char "/" head then head else Py.rstrip "/" head, t)
  end.

(** [os.path.splitext(p)]: the extension starts at the last dot of the last
    component, unless only dots precede it there. *)
Definition splitext (p : string) : string * string :=
  let (dir, base) :=
    match Py.rpartition "/" p with
    | None => ("", p)
    | Some (h, t) => (h +:+ "/", t)
    end in
  match Py.rpartition "." base with
  | None => (p, "")
  | Some (stem, e) =>
      if Py.all_char "." stem then (p, "") else (dir +:+ stem, "." +:+ e)
  end.

End os_path.

(** ** Decoded audio and the [AudioFile] object *)

(** Modelled from the spec: the decoded content of an audio file as the codec
    collaborator returns it (section 6), one list of samples per channel,
    with the sample rate and the sample format. *)
Record Audio := mkAudio {
  samplerate : N;
  subtype : string;
  channel_data : list (list Q);
}.

(** Modelled from the spec: the closed set of actions (4.3) and their display
    names, as [test_action] and [test_proceed_read_only] spell them. *)
Inductive Action := Default | Monoize | Remove | Split | Join | NoAction.

(** Modelled from the spec: the display name of an action, used for
    reporting. *)
Definition action_name (a : Action) : string :=
  match a with
  | Default => "Default"
  | Monoize => "Monoize"
  | Remove => "Remove"
  | Split => "Split"
  | Join => "Join"
  | NoAction => "None"
  end.

(** Modelled from the spec: the attributes of an [AudioFile] object (section
    3), named as [FileList] and [test_file_names] read them; the class itself
    is in [audio_file_handler.py]. [file] is the decoded content, [None] when
    the path could not be opened. The thresholds are amplitude floors (the
    linear value of the configured decibel figures). *)
Record AudioFile := mkAudioFile {
  filepath : string;
  dirname : string;
  extension : string;
  root : string;
  filebase : string;
  channelnum : string;
  file : option Audio;
  null_threshold : Q;
  empty_threshold : Q;
  _action : Action;
  join_files : list string;
}.

(** ** The filesystem *)

Inductive Node := Dir | File (a : Audio).

Abbreviation Disk := (gmap string Node).

Module os.

(** [os.path.exists(p)]. *)
Definition path_exists (disk : Disk) (p : string) : bool :=
  bool_decide (is_Some (disk !! p)).

(** [os.listdir(folder)]: the names [n] with [os.path.join(folder, n)] on
    disk; raises unless [folder] is a directory. The order is the map's. *)
Definition listdir (disk : Disk) (folder : string) : option (list string) :=
  match disk !! folder with
  | Some Dir =>
      Some (omap (λ p, let n := (os_path.split p).2 in
                       if Py.truthy n && String.eqb (os_path.join folder [n]) p
                       then Some n else None)
                 (map_to_list disk).*1)
  | _ => None
  end.

(** [os.remove(p)]. *)
Definition remove (p : string) (disk : Disk) : Disk := delete p disk.

End os.

(** ** [folder_handler.py]: module-level helpers *)

(** The values stored in an options [dict]. *)
Inductive Value := VBool (b : bool) | VStr (s : string) | VNum (q : Q).

Definition extensions : list string := [".wav"; ".wave"].

Definition _is_audio_file (file : string) : bool :=
  let file_extension := (os_path.splitext file).2 in
  bool_decide (Py.upper file_extension ∈ Py.upper <$> extensions).

Definition _list_audio_files (disk : Disk) (folder : string) : option (list string) :=
  (λ l : list string, filter (λ f, _is_audio_file f) l)
    <$> os.listdir disk folder.

Definition _iterate_files (disk : Disk) (folder : string) : option (list string) :=
  (λ l : list string, (λ f, os_path.join folder [f]) <$> l)
    <$> _list_audio_files disk folder.

(** ** [class FileList] *)

Record FileList := mkFileList {
  _options : gmap string Value;
  _files : list AudioFile;
  _joinlists : option (gmap string (list AudioFile));
  _flat_joinlists : option (list string);
  _folderpath : string;
}.

Definition default_options : gmap string Value :=
  <["backup" := VBool true]> (<["delimiter" := VStr "."]>
  (<["null_threshold" := VNum (-100)]> (<["empty_threshold" := VNum (-100)]> ∅))).

(** The [folderpath] property: getter and setter. [folder] is [None] or a
    [str]. *)
Definition folderpath (L : FileList) : string := _folderpath L.

Definition set_folderpath (disk : Disk) (L : FileList) (folder : option string) : FileList :=
  match folder with
  | Some p =>
      if Py.truthy p && os.path_exists disk p
      then mkFileList (_options L) [] (_joinlists L) (_flat_joinlists L) p
      else L
  | None => L
  end.

(** [FileList.__init__(folder=None, options=None)]. *)
Definition __init__ (disk : Disk) (folder : option string)
    (options : option (gmap string Value)) : FileList :=
  let o := match options with
           | Some o => if decide (size o = 0) then default_options else o
           | None => default_options
           end in
  set_folderpath disk (mkFileList o [] None None "") folder.

(** The functions nested in [FileList.backup]. *)
Module backup.

(** [join] with positional arguments [a] and [p] and the keywords [inc] and
    [ext], both defaulting to the empty string. *)
Definition join (a : string) (p : list string) (inc ext : string) : string :=
  Py.rstrip "\" (os_path.join a p)
  +:+ (if negb (String.eqb inc "0") then inc else "")
  +:+ (if Py.truthy ext then ext else "").

(** The [while] loop of [unique], started at counter [i]; [fuel] bounds the
    number of probes. *)
Fixpoint unique_loop (disk : Disk) (a : string) (p : list string) (ext : string)
    (fuel i : nat) : option string :=
  match fuel with
  | O => None
  | S fuel' =>
      let name := join a p (Py.str i) ext in
      if os.path_exists disk name
      then unique_loop disk a p ext fuel' (S i)
      else Some name
  end.

(** [unique] with positional arguments [a] and [p], the flag [new], and
    [ext] as the only other keyword.
    One probe more than there are paths on disk always suffices
    ([unique_returns]). *)
Definition unique (disk : Disk) (a : string) (p : list string) (new : bool)
    (ext : string) : option string :=
  if negb new then Some (join a p "" ext)
  else unique_loop disk a p ext (S (size disk)) 0.

(** The local [folderpath] of [FileList.backup(folder, newFolder)].
    [bakpath.isspace] is the bound method, not a call, hence truthy. *)
Definition folderpath (disk : Disk) (L : FileList) (folder : string)
    (newFolder : bool) : option string :=
  let '(bakpath, bakfolder) := os_path.split folder in
  let isspace := true in
  let path := if negb (Py.truthy bakpath) || isspace then _folderpath L else bakpath in
  unique disk path [bakfolder] newFolder "".

End backup.

Section FileList.

(** [AudioFile] lives in [audio_file_handler.py]. Its constructor, called as
    [AudioFile(filepath, null_threshold=.., empty_threshold=..)], and the
    result of [AudioFile.__eq__] on a [str] operand ([None]: the comparison
    raises) are taken as parameters. *)
Variable AudioFile_new : Disk → string → Value → Value → AudioFile.
Variable AudioFile_eq_str : AudioFile → string → option bool.

Definition _create_analysis (disk : Disk) (filepath : string)
    (options : gmap string Value) : option AudioFile :=
  nt ← options !! "null_threshold";
  et ← options !! "empty_threshold";
  Some (AudioFile_new disk filepath nt et).

Definition _search_folder (disk : Disk) (L : FileList) (folder : string)
    : option (list AudioFile) :=
  l ← _iterate_files disk folder;
  mapM (λ f, _create_analysis disk f (_options L)) l.

(** Modelled from the spec: [utils.lazy_property] is not among the sources.
    A cached view is populated on first access and recomputed once its cache
    attribute has been reset: the body runs when [_files] is empty (the
    value the [folderpath] setter resets it to), otherwise the cached list is
    returned. *)
Definition files (disk : Disk) (L : FileList) : option (list AudioFile * FileList) :=
  match _files L with
  | [] =>
      fs ← _search_folder disk L (_folderpath L);
      Some (fs, mkFileList (_options L) fs (_joinlists L) (_flat_joinlists L) (_folderpath L))
  | fs => Some (fs, L)
  end.

Definition __len__ (disk : Disk) (L : FileList) : option (nat * FileList) :=
  if negb (String.eqb (_folderpath L) "")
  then '(fs, L') ← files disk L; Some (length fs, L')
  else Some (0, L).

(** [f in flat_d] for a list of [str]: the first comparison that is true
    decides, a comparison that raises propagates. *)
Fixpoint py_in (f : AudioFile) (l : list string) : option bool :=
  match l with
  | [] => Some false
  | y :: l' =>
      b ← AudioFile_eq_str f y;
      if b : bool then Some true else py_in f l'
  end.

(** The [dict] [d] of [_search_for_join], in insertion order. *)
Definition dict_get {V} (k : string) (d : list (string * V)) : option V :=
  (list_to_map d : gmap string V) !! k.

Fixpoint dict_set {V} (k : string) (v : V) (d : list (string * V)) : list (string * V) :=
  match d with
  | [] => [(k, v)]
  | (k', v') :: d' =>
      if String.eqb k' k then (k, v) :: d' else (k', v') :: dict_set k v d'
  end.

(** One iteration of [for f in self] in [_search_for_join]. *)
Definition search_step (d : list (string * list (AudioFile * string))) (f : AudioFile)
    : option (list (string * list (AudioFile * string))) :=
  if negb (Py.truthy (channelnum f)) then Some d
  else
    let flat_d := d.*1 ≫= Py.chars in
    b ← py_in f flat_d;
    if b : bool then Some d
    else
      let base := filebase f in
      let ch := channelnum f in
      match dict_get base d with
      | Some v =>
          if bool_decide (ch ∈ v.*2) then Some d
          else Some (dict_set base (v ++ [(f, ch)]) d)
      | None => Some (dict_set base [(f, ch)] d)
      end.

Fixpoint search_loop (d : list (string * list (AudioFile * string)))
    (fs : list AudioFile) : option (list (string * list (AudioFile * string))) :=
  match fs with
  | [] => Some d
  | f :: fs' => d' ← search_step d f; search_loop d' fs'
  end.

(** The returned comprehension: every base with more than one member, its
    members sorted by channel token. The generator stored per key is
    represented by the list it yields. *)
Definition search_result (d : list (string * list (AudioFile * string)))
    : gmap string (list AudioFile) :=
  list_to_map
    ((λ kv, (kv.1, (Py.sorted snd kv.2).*1))
       <$> filter (λ kv, 1 < length kv.2) d).

Definition _search_for_join (disk : Disk) (L : FileList)
    : option (gmap string (list AudioFile) * FileList) :=
  '(n, L1) ← __len__ disk L;
  if (n <=? 1)%nat then Some (∅, L1)
  else
    '(fs, L2) ← files disk L1;
    d ← search_loop [] fs;
    Some (search_result d, L2).

End FileList.

(** ** [class AudioFile]: classification, action resolution and mutations

    [audio_file_handler.py] is not among the sources; what follows is written
    from the specification (sections 3, 4.2, 4.3, 4.4) and agrees with the
    parametrised cases of [tests/test_audio_file_handler.py]. Every regular
    file on [Disk] decodes; a path fails to open when it is absent or a
    directory. *)

Module audio_file.

(** Modelled from the spec: decoding a path through the codec collaborator,
    [None] on a load failure. *)
Definition load (disk : Disk) (p : string) : option Audio :=
  match disk !! p with
  | Some (File a) => Some a
  | _ => None
  end.

(** Modelled from the spec: the number of sample frames of a decoded file. *)
Definition frames (a : Audio) : nat := max_list (length <$> channel_data a).

(** Modelled from the spec: silence (4.2). The peak absolute amplitude across
    all channels is at or below [null_threshold]; unknown for a file that
    failed to open. *)
Definition isEmpty (f : AudioFile) : option bool :=
  a ← file f;
  Some (forallb (forallb (λ x, Qle_bool (Qabs x) (null_threshold f))) (channel_data a)).

(** Modelled from the spec: [remove(forced=False)] (4.3). A file that failed
    to load is left alone; a non-silent file is refused unless [forced]. *)
Definition remove (f : AudioFile) (forced : bool) (disk : Disk) : Disk :=
  match isEmpty f with
  | None => disk
  | Some silent =>
      if negb silent && negb forced then disk else os.remove (filepath f) disk
  end.

(** Modelled from the spec: the destination of a join. The default is the
    shared base name next to the file; a bare name is placed next to the file
    with the file's extension and a path with a directory part is taken as
    it is ([test_get_newfile_path], [test_join]). *)
Definition get_newfile_path (f : AudioFile) (s : option string) : string :=
  match s with
  | None => os_path.join (dirname f) [filebase f +:+ extension f]
  | Some s =>
      if Py.truthy (os_path.split s).1 then s
      else os_path.join (dirname f) [s +:+ extension f]
  end.

(** Modelled from the spec: the outcome a call of [join] reports. *)
Inductive JoinOutcome :=
  | Joined (newfile : string)
  | SizeMismatch
  | FileNotFound (path : string)
  | NotLoaded.

(** Modelled from the spec: every participant must exist and be loadable;
    the first offending path is reported. *)
Fixpoint load_all (disk : Disk) (ps : list string) : string + list Audio :=
  match ps with
  | [] => inr []
  | p :: ps' =>
      match load disk p with
      | None => inl p
      | Some a =>
          match load_all disk ps' with
          | inl q => inl q
          | inr l => inr (a :: l)
          end
      end
  end.

(** Modelled from the spec: zero-padding the channels of [a] to [n] frames. *)
Definition pad_to (n : nat) (a : Audio) : list (list Q) :=
  (λ ch, ch ++ replicate (n - length ch) 0%Q) <$> channel_data a.

(** Modelled from the spec: [join(others, newfile=None, remove=True,
    forced=False)] (4.3). [others] is the sequence of sibling paths (a single
    string stands for the sequence of its paths). The file is channel 1, the
    siblings follow in order. Unequal frame counts are refused unless
    [forced], which pads the shorter files with zeros to the longest length.
    On success the sources are deleted when [remove] is set and the merged
    file is written at the destination ([test_join],
    [test_join_different_size]). Under the read-only mode the outcome is
    computed and the disk is not touched. *)
Definition join (read_only : bool) (f : AudioFile) (others : list string)
    (newfile : option string) (remove forced : bool) (disk : Disk)
    : JoinOutcome * Disk :=
  match file f with
  | None => (NotLoaded, disk)
  | Some _ =>
      match load_all disk (filepath f :: others) with
      | inl p => (FileNotFound p, disk)
      | inr parts =>
          let sizes := frames <$> parts in
          if negb (forallb (λ n, n =? hd 0 sizes)%nat sizes) && negb forced
          then (SizeMismatch, disk)
          else
            let target := get_newfile_path f newfile in
            let a := default (mkAudio 0 "" []) (head parts) in
            let merged :=
              mkAudio (samplerate a) (subtype a) (parts ≫= pad_to (max_list sizes)) in
            let disk1 :=
              if remove then foldr os.remove disk (filepath f :: others) else disk in
            (Joined target, if read_only then disk else <[target := File merged]> disk1)
      end
  end.

(** Modelled from the spec: the frame-wise mean of all channels. *)
Definition mean_channels (chs : list (list Q)) : list Q :=
  let n := max_list (length <$> chs) in
  let total :=
    foldr (λ ch acc, zip_with Qplus (ch ++ replicate (n - length ch) 0%Q) acc)
          (replicate n 0%Q) chs in
  (λ x, x / inject_Z (Z.of_nat (length chs)))%Q <$> total.

(** Modelled from the spec: [monoize(channel)] (4.3). Keeps the indexed
    channel, or the mean of all channels when no index is given; the sample
    rate and format are kept. No-op on a mono file, on a file that failed to
    load and on an index the file does not have. *)
Definition monoize (f : AudioFile) (channel : option nat) (disk : Disk) : Disk :=
  match file f with
  | None => disk
  | Some a =>
      let chs := channel_data a in
      if (length chs <=? 1)%nat then disk
      else
        match channel with
        | None =>
            <[filepath f := File (mkAudio (samplerate a) (subtype a) [mean_channels chs])]> disk
        | Some i =>
            match chs !! i with
            | Some ch =>
                <[filepath f := File (mkAudio (samplerate a) (subtype a) [ch])]> disk
            | None => disk
            end
        end
  end.

(** Modelled from the spec: the channel tokens of [split]: L and R for two
    channels, 1..N otherwise. *)
Definition channel_tokens (n : nat) : list string :=
  if (n =? 2)%nat then ["L"; "R"] else Py.str <$> seq 1 n.

(** Modelled from the spec: [split(delimiter)] (4.3). One file per channel at
    root, delimiter, token, extension; then the original is deleted. No-op on
    a single-channel file and on a file that failed to load. *)
Definition split (f : AudioFile) (delimiter : string) (disk : Disk) : Disk :=
  match file f with
  | None => disk
  | Some a =>
      let chs := channel_data a in
      if (length chs <=? 1)%nat then disk
      else
        os.remove (filepath f)
          (foldl (λ d tc,
                    <[root f +:+ delimiter +:+ tc.1 +:+ extension f
                      := File (mkAudio (samplerate a) (subtype a) [tc.2])]> d)
                 disk (zip (channel_tokens (length chs)) chs))
  end.

(** Modelled from the spec: the options [proceed] and the resolver read
    (section 6). [None] in [opt_remove] and [opt_monoize] is an option that
    was not given. *)
Record Options := mkOptions {
  read_only : bool;
  opt_remove : option bool;
  opt_monoize : option bool;
  forced : bool;
  channel : option nat;
  delimiter : string;
  join_others : list string;
  join_newfile : option string;
}.

(** Modelled from the spec: what a call of [proceed] leaves behind, the
    reported action name, the operation it invoked (if any), and the disk. *)
Record Proceeded := mkProceeded {
  reported : string;
  invoked : option Action;
  disk_after : Disk;
}.

Section Resolver.

(** The similarity test of the analyzer on a channel pair; the specification
    leaves the measure and its threshold open (section 9). *)
Variable correlated : list Q → list Q → bool.

(** Modelled from the spec: fake stereo (4.2). Exactly two channels, not
    silent, channels correlated; unknown for a file that failed to open. *)
Definition isFakeStereo (f : AudioFile) : option bool :=
  a ← file f;
  silent ← isEmpty f;
  Some (match channel_data a with
        | [l; r] => negb silent && correlated l r
        | _ => false
        end).

(** Modelled from the spec: an option that is explicitly false (4.4). *)
Definition explicitly_false (o : option bool) : bool :=
  match o with
  | Some false => true
  | _ => false
  end.

(** Modelled from the spec: a classification fact that is known and true. *)
Definition holds (fact : option bool) : bool :=
  match fact with
  | Some true => true
  | _ => false
  end.

(** Modelled from the spec: [default_action] (4.4), first match wins.
    [group] is the ordered join group of the file, its first element the
    leader. *)
Definition default_action (f : AudioFile) (group : list string) (o : Options) : Action :=
  if holds (isEmpty f) then
    if explicitly_false (opt_remove o) then NoAction else Remove
  else if holds (isFakeStereo f) then
    if explicitly_false (opt_monoize o) then NoAction else Monoize
  else if bool_decide (join_files f ≠ []) then
    if bool_decide (head group = Some (filepath f)) then Join else NoAction
  else NoAction.

(** Modelled from the spec: the action [proceed] acts on (4.3), the one set
    on the file, or the resolved one when it is still [Default]. *)
Definition resolved_action (f : AudioFile) (group : list string) (o : Options) : Action :=
  match _action f with
  | Default => default_action f group o
  | a => a
  end.

(** Modelled from the spec: [proceed(options)] (4.3). Dispatches on the
    resolved action and forwards the matching options. Under [read_only] it
    reports the action name and invokes nothing, [Monoize] included:
    [test_proceed_read_only] asserts the result [Monoize] together with
    [monoize] not having been called. *)
Definition proceed (f : AudioFile) (group : list string) (o : Options) (disk : Disk)
    : Proceeded :=
  let a := resolved_action f group o in
  if read_only o then mkProceeded (action_name a) None disk
  else
    match a with
    | Monoize => mkProceeded (action_name a) (Some a) (monoize f (channel o) disk)
    | Remove => mkProceeded (action_name a) (Some a) (remove f (forced o) disk)
    | Split => mkProceeded (action_name a) (Some a) (split f (delimiter o) disk)
    | Join =>
        mkProceeded (action_name a) (Some a)
          (join false f (join_others o) (join_newfile o)
                (negb (explicitly_false (opt_remove o))) (forced o) disk).2
    | NoAction | Default => mkProceeded (action_name a) None disk
    end.

End Resolver.

End audio_file.

(** * Properties *)

(** ** The [folderpath] setter and [__len__] *)

(** C10. Assigning [p] to [folderpath] changes the collection only when [p]
    is truthy and names an existing path: then the stored folder path becomes
    [p], the cached file list is reset and nothing else changes. A falsy [p]
    ([None] or the empty string) or a path that does not exist leaves the
    collection as it was. A collection whose folder path is still the empty
    string has length 0, whatever the disk and the constructor. *)
Theorem folderpath_setter_guarded (disk : Disk) (L : FileList) (p : option string) :
  (∀ s, p = Some s → Py.truthy s = true → os.path_exists disk s = true →
     set_folderpath disk L p
     = mkFileList (_options L) [] (_joinlists L) (_flat_joinlists L) s)
  ∧ (p = None ∨ p = Some "" ∨ (∃ s, p = Some s ∧ os.path_exists disk s = false) →
     set_folderpath disk L p = L)
  ∧ (set_folderpath disk L p ≠ L →
     ∃ s, p = Some s ∧ s ≠ "" ∧ is_Some (disk !! s))
  ∧ (∀ new, _folderpath L = "" → __len__ new disk L = Some (0, L)).
Proof.
  split_and!.
  - intros s -> Ht He. unfold set_folderpath. by rewrite Ht, He.
  - intros [->|[->|(s & -> & He)]]; unfold set_folderpath; [done|done|].
    rewrite He. by rewrite andb_false_r.
  - unfold set_folderpath. destruct p as [s|]; [|done].
    destruct (Py.truthy s) eqn:Ht; [|done].
    destruct (os.path_exists disk s) eqn:He; [|done].
    intros _. exists s. split_and!; [done| |].
    + intros ->. discriminate Ht.
    + unfold os.path_exists in He. by apply bool_decide_eq_true in He.
  - intros new Hf. unfold __len__. by rewrite Hf.
Qed.

(** A fresh collection given no folder, or a folder that is not on disk,
    keeps the empty folder path and so reports length 0. *)
Lemma init_without_folder_len (disk : Disk) new options folder :
  (folder = None ∨ ∃ s, folder = Some s ∧ os.path_exists disk s = false) →
  fst <$> __len__ new disk (__init__ disk folder options) = Some 0.
Proof.
  intros [->|(s & -> & He)]; unfold __init__, set_folderpath; [done|].
  by rewrite He, andb_false_r.
Qed.

(** ** [backup]: the nested [join] and [unique] *)

Lemma pretty_N_go_length x s :
  (String.length s ≤ String.length (pretty_N_go x s))%nat.
Proof.
  revert s. induction (N.lt_wf_0 x) as [x _ IH]; intros s.
  destruct (decide (x = 0%N)) as [->|Hx].
  - by rewrite pretty_N_go_0.
  - rewrite pretty_N_go_step by lia.
    etrans; [|apply IH; apply N.div_lt; lia]. simpl. lia.
Qed.

(** [str(i)] is never empty, and distinct numbers print differently. *)
Lemma str_ne_empty i : Py.str i ≠ "".
Proof.
  unfold Py.str, pretty, pretty_nat, pretty, pretty_N.
  case_decide as Hi; [done|].
  intros Hs.
  pose proof (pretty_N_go_length (N.of_nat i `div` 10)
    (String (pretty_N_char (N.of_nat i `mod` 10)) "")) as Hlen.
  rewrite pretty_N_go_step in Hs by lia.
  rewrite Hs in Hlen. simpl in Hlen. lia.
Qed.

Lemma str_inj i j : Py.str i = Py.str j → i = j.
Proof. apply (inj (pretty (A:=nat))). Qed.

Lemma string_length_app (s1 s2 : string) :
  String.length (s1 +:+ s2) = (String.length s1 + String.length s2)%nat.
Proof.
  induction s1 as [|a s1 IH]; [done|].
  change (S (String.length (s1 +:+ s2)) = S (String.length s1 + String.length s2)).
  by rewrite IH.
Qed.

Lemma string_app_inv_tail (s1 s2 t : string) : s1 +:+ t = s2 +:+ t → s1 = s2.
Proof.
  intros Heq.
  assert (String.length s1 = String.length s2) as Hlen.
  { apply (f_equal String.length) in Heq. rewrite !string_length_app in Heq. lia. }
  revert s2 Hlen Heq.
  induction s1 as [|a s1 IH]; intros [|b s2] Hlen Heq; try done.
  change (String a (s1 +:+ t) = String b (s2 +:+ t)) in Heq.
  injection Heq as -> Heq. f_equal. apply IH; [by injection Hlen|done].
Qed.

(** The names probed by [unique]: the bare name for counter 0, the name with
    the counter appended for every other counter. *)
Lemma join_counter a p ext k :
  backup.join a p (Py.str k) ext
  = Py.rstrip "\" (os_path.join a p)
    +:+ match k with O => "" | S _ => Py.str k end +:+ ext.
Proof.
  unfold backup.join. f_equal. f_equal.
  - destruct k as [|k]; [done|].
    destruct (String.eqb_spec (Py.str (S k)) "0") as [He|]; [|done].
    by apply (str_inj (S k) 0) in He.
  - by destruct ext.
Qed.

Lemma join_inj a p ext i j :
  backup.join a p (Py.str i) ext = backup.join a p (Py.str j) ext → i = j.
Proof.
  rewrite !join_counter. intros Heq.
  apply (inj (String.app _)) in Heq. apply string_app_inv_tail in Heq.
  destruct i as [|i], j as [|j]; [done| | |by apply str_inj].
  - by destruct (str_ne_empty (S j)).
  - by destruct (str_ne_empty (S i)).
Qed.

Lemma unique_loop_Some disk a p ext fuel i name :
  backup.unique_loop disk a p ext fuel i = Some name →
  ∃ k, (i ≤ k < i + fuel)%nat ∧ name = backup.join a p (Py.str k) ext
    ∧ os.path_exists disk name = false
    ∧ ∀ j, (i ≤ j < k)%nat →
        os.path_exists disk (backup.join a p (Py.str j) ext) = true.
Proof.
  revert i. induction fuel as [|fuel IH]; intros i; simpl; [done|].
  destruct (os.path_exists disk (backup.join a p (Py.str i) ext)) eqn:Hi.
  - intros (k & Hk & Hname & Hfree & Hbusy)%IH. exists k.
    repeat split; [lia|lia|done|done|].
    intros j Hj. destruct (decide (j = i)) as [->|]; [done|]. apply Hbusy. lia.
  - intros [= <-]. exists i. repeat split; [lia|lia|done|]. intros j. lia.
Qed.

Lemma unique_loop_None disk a p ext fuel i :
  backup.unique_loop disk a p ext fuel i = None →
  ∀ j, (i ≤ j < i + fuel)%nat →
    os.path_exists disk (backup.join a p (Py.str j) ext) = true.
Proof.
  revert i. induction fuel as [|fuel IH]; intros i; simpl; [lia|].
  destruct (os.path_exists disk (backup.join a p (Py.str i) ext)) eqn:Hi; [|done].
  intros Hn j Hj. destruct (decide (j = i)) as [->|]; [done|].
  apply (IH _ Hn). lia.
Qed.

(** The probed names are pairwise distinct, so at most [size disk] of them
    exist. *)
Lemma probes_bounded (disk : Disk) a p ext n :
  (∀ j, (j < n)%nat →
     os.path_exists disk (backup.join a p (Py.str j) ext) = true) →
  (n ≤ size disk)%nat.
Proof.
  intros Hall.
  set (l := (λ j, backup.join a p (Py.str j) ext) <$> seq 0 n).
  assert (NoDup l) as Hnd.
  { apply NoDup_fmap_2; [|apply NoDup_seq]. intros i j. apply join_inj. }
  assert (list_to_set l ⊆ dom disk) as Hsub.
  { intros x [j [-> Hj%elem_of_seq]]%elem_of_list_to_set%list_elem_of_fmap.
    apply elem_of_dom. specialize (Hall j ltac:(lia)).
    unfold os.path_exists in Hall. by apply bool_decide_eq_true in Hall. }
  apply subseteq_size in Hsub.
  rewrite size_list_to_set, size_dom in Hsub by done.
  unfold l in Hsub. by rewrite length_fmap, length_seq in Hsub.
Qed.

Lemma unique_new disk a p ext :
  backup.unique disk a p true ext
  = backup.unique_loop disk a p ext (S (size disk)) 0.
Proof. done. Qed.

(** The loop of [unique] ends within the probes it is given. *)
Lemma unique_returns disk a p ext :
  is_Some (backup.unique disk a p true ext).
Proof.
  rewrite unique_new.
  destruct (backup.unique_loop disk a p ext (S (size disk)) 0) eqn:Hl; [by eexists|].
  pose proof (unique_loop_None _ _ _ _ _ _ Hl) as Hall.
  assert (S (size disk) ≤ size disk)%nat; [|lia].
  apply (probes_bounded disk a p ext). intros j Hj. apply Hall. lia.
Qed.

(** C7. [unique] with [new] set probes the bare name first and then the name
    with the counter 1, 2, ... appended (the counter 0 is left out, so there
    is no candidate ending in 0), and returns the first candidate that is not
    on disk. The disk is only read. The result is therefore never an existing
    path; it depends only on which candidates exist, so a repeated call on an
    unchanged disk returns the same path; and once the returned path has been
    created the next call returns a different one. *)
Theorem unique_first_free (disk : Disk) (a : string) (p : list string) (ext : string) :
  ∃ k,
    backup.unique disk a p true ext = Some (backup.join a p (Py.str k) ext)
    ∧ backup.join a p (Py.str k) ext
      = Py.rstrip "\" (os_path.join a p)
        +:+ match k with O => "" | S _ => Py.str k end +:+ ext
    ∧ os.path_exists disk (backup.join a p (Py.str k) ext) = false
    ∧ (∀ j, (j < k)%nat →
         os.path_exists disk (backup.join a p (Py.str j) ext) = true)
    ∧ (∀ disk' : Disk,
         (∀ j, os.path_exists disk' (backup.join a p (Py.str j) ext)
               = os.path_exists disk (backup.join a p (Py.str j) ext)) →
         backup.unique disk' a p true ext = Some (backup.join a p (Py.str k) ext))
    ∧ (∀ node,
         backup.unique (<[backup.join a p (Py.str k) ext := node]> disk) a p true ext
         ≠ Some (backup.join a p (Py.str k) ext)).
Proof.
  assert (∀ d : Disk, ∃ k,
    backup.unique d a p true ext = Some (backup.join a p (Py.str k) ext)
    ∧ os.path_exists d (backup.join a p (Py.str k) ext) = false
    ∧ ∀ j, (j < k)%nat →
        os.path_exists d (backup.join a p (Py.str j) ext) = true) as Hfirst.
  { intros d. destruct (unique_returns d a p ext) as [name Hname].
    rewrite Hname. rewrite unique_new in Hname.
    apply unique_loop_Some in Hname as (k & _ & -> & Hfree & Hbusy).
    exists k. split_and!; [done|done|]. intros j Hj. apply Hbusy. lia. }
  destruct (Hfirst disk) as (k & Hk & Hfree & Hbusy).
  exists k. split_and!; [done|apply join_counter|done|done|..].
  - intros disk' Hsame. destruct (Hfirst disk') as (k' & Hk' & Hfree' & Hbusy').
    rewrite Hk'. do 2 f_equal.
    destruct (Nat.lt_trichotomy k' k) as [Hlt|[->|Hlt]]; [|done|].
    + apply Hbusy in Hlt. rewrite <-Hsame in Hlt. congruence.
    + apply Hbusy' in Hlt. rewrite Hsame in Hlt. congruence.
  - intros node Hu.
    destruct (Hfirst (<[backup.join a p (Py.str k) ext := node]> disk))
      as (k' & Hk' & Hfree' & _).
    rewrite Hu in Hk'. injection Hk' as Hk'. rewrite <-Hk' in Hfree'.
    unfold os.path_exists in Hfree'. apply bool_decide_eq_false in Hfree'.
    apply Hfree'. rewrite lookup_insert_eq. by eexists.
Qed.

(** A project folder that already holds a backup folder [bak]. *)
Definition disk_with_bak : Disk := <["proj" := Dir]> (<["proj/bak" := Dir]> ∅).

(** C7, as stated, fails: with [proj/bak] on disk the second candidate would
    be [proj/bak0], which is free, yet [unique] (and with it the backup folder
    of a collection on [proj]) returns [proj/bak1]; and two consecutive calls
    return one and the same path. *)
Lemma unique_skips_counter_0 :
  os.path_exists disk_with_bak "proj/bak" = true
  ∧ os.path_exists disk_with_bak "proj/bak0" = false
  ∧ backup.unique disk_with_bak "proj" ["bak"] true "" = Some "proj/bak1"
  ∧ backup.folderpath disk_with_bak (__init__ disk_with_bak (Some "proj") None) "bak" true
    = Some "proj/bak1"
  ∧ (let first := backup.unique disk_with_bak "proj" ["bak"] true "" in
     let second := backup.unique disk_with_bak "proj" ["bak"] true "" in
     first = second).
Proof. by vm_compute. Qed.

(** ** [_search_for_join] *)

(** [sorted] returns a permutation ordered by the keys. *)

Section sorted.
Context {A : Type} (key : A → string).

Definition key_le (x y : A) : Prop := String.leb (key x) (key y) = true.

Lemma insert_by_perm x l : Py.insert_by key x l ≡ₚ x :: l.
Proof.
  induction l as [|y l IH]; simpl; [done|].
  destruct (String.leb (key x) (key y)); [done|].
  rewrite IH. apply Permutation_swap.
Qed.

Lemma sorted_perm l : Py.sorted key l ≡ₚ l.
Proof.
  induction l as [|x l IH]; simpl; [done|].
  unfold Py.sorted in *. simpl. by rewrite insert_by_perm, IH.
Qed.

Lemma key_le_trans x y z : key_le x y → key_le y z → key_le x z.
Proof.
  unfold key_le. intros H1%Is_true_true H2%Is_true_true. apply Is_true_true.
  by apply (transitivity (R:=String.le) H1 H2).
Qed.

Lemma insert_by_sorted x l :
  StronglySorted key_le l → StronglySorted key_le (Py.insert_by key x l).
Proof.
  induction 1 as [|y l Hl IH Hy]; simpl.
  - repeat constructor.
  - destruct (String.leb (key x) (key y)) eqn:Hxy.
    + constructor; [by constructor|]. constructor; [done|].
      eapply Forall_impl; [done|]. intros z Hz. by eapply key_le_trans.
    + constructor; [done|]. rewrite insert_by_perm. constructor; [|done].
      destruct (String.leb_total (key x) (key y)) as [Hc|Hc]; [congruence|done].
Qed.

Lemma sorted_sorted l : StronglySorted key_le (Py.sorted key l).
Proof.
  induction l as [|x l IH]; [constructor|]. by apply insert_by_sorted.
Qed.

End sorted.

(** ** The insertion-ordered [dict] *)

Lemma dict_set_to_map {V} k (v : V) d :
  (list_to_map (dict_set k v d) : gmap string V) = <[k := v]> (list_to_map d).
Proof.
  induction d as [|[k' v'] d IH]; simpl; [done|].
  destruct (String.eqb_spec k' k) as [->|Hne]; simpl.
  - by rewrite insert_insert_eq.
  - rewrite IH. by apply insert_insert_ne.
Qed.

Lemma dict_set_keys {V} k (v : V) d :
  (dict_set k v d).*1 = if decide (k ∈ d.*1) then d.*1 else d.*1 ++ [k].
Proof.
  induction d as [|[k' v'] d IH].
  - rewrite decide_False; [done|]. by intros ?%elem_of_nil.
  - cbn [dict_set]. rewrite fmap_cons. cbn [fst].
    destruct (String.eqb_spec k' k) as [->|Hne].
    + rewrite decide_True; [done|]. apply list_elem_of_here.
    + rewrite fmap_cons, IH. cbn [fst]. destruct (decide (k ∈ d.*1)) as [Hin|Hin].
      * rewrite decide_True; [done|]. by apply list_elem_of_further.
      * rewrite decide_False; [done|]. by intros [?|?]%elem_of_cons.
Qed.

Lemma dict_set_NoDup {V} k (v : V) d : NoDup d.*1 → NoDup (dict_set k v d).*1.
Proof.
  intros Hnd. rewrite dict_set_keys. case_decide; [done|].
  apply NoDup_app. split_and!; [done| |apply NoDup_singleton].
  by intros x Hx ->%list_elem_of_singleton.
Qed.

Lemma dict_get_set {V} k k' (v : V) d :
  dict_get k' (dict_set k v d) = if decide (k = k') then Some v else dict_get k' d.
Proof. unfold dict_get. rewrite dict_set_to_map. apply lookup_insert. Qed.

Lemma elem_of_snoc {A} (l : list A) (x y : A) : y ∈ l ++ [x] ↔ y ∈ l ∨ y = x.
Proof. by rewrite elem_of_app, list_elem_of_singleton. Qed.

Lemma truthy_spec s : Py.truthy s = true ↔ s ≠ "".
Proof.
  unfold Py.truthy. destruct (String.eqb_spec s ""); simpl; split; congruence.
Qed.

Section search.

Variable new : Disk → string → Value → Value → AudioFile.
Variable eqs : AudioFile → string → option bool.

(** What [d] holds after the files [seen] have been visited: distinct keys,
    and under each key members that were visited, carry that base and a
    non-empty channel token, no token twice. *)
Definition claimed (seen : list AudioFile)
    (d : list (string * list (AudioFile * string))) : Prop :=
  NoDup d.*1
  ∧ ∀ k v, dict_get k d = Some v →
      v ≠ []
      ∧ NoDup v.*2
      ∧ ∀ f ch, (f, ch) ∈ v →
          f ∈ seen ∧ filebase f = k ∧ channelnum f = ch ∧ ch ≠ "".

Lemma claimed_nil : claimed [] [].
Proof.
  split; [constructor|]. intros k v. unfold dict_get. simpl.
  by rewrite lookup_empty.
Qed.

Lemma claimed_seen seen f d : claimed seen d → claimed (seen ++ [f]) d.
Proof.
  intros [Hnd Hd]. split; [done|]. intros k v Hk.
  destruct (Hd k v Hk) as (Hne & Hch & Hm). split_and!; [done|done|].
  intros g ch Hg. destruct (Hm g ch Hg) as (? & ? & ? & ?).
  split_and!; [|done..]. apply elem_of_app. by left.
Qed.

Lemma search_step_claimed seen d f d' :
  claimed seen d → search_step eqs d f = Some d' → claimed (seen ++ [f]) d'.
Proof.
  intros Hc. unfold search_step.
  destruct (Py.truthy (channelnum f)) eqn:Hch; simpl;
    [|intros [= <-]; by apply claimed_seen].
  apply truthy_spec in Hch.
  destruct (py_in eqs f _) as [[|]|]; simpl; [intros [= <-]; by apply claimed_seen| |done].
  destruct (dict_get (filebase f) d) as [v|] eqn:Hget.
  - case_bool_decide as Hin; intros [= <-]; [by apply claimed_seen|].
    destruct Hc as [Hnd Hd]. destruct (Hd _ _ Hget) as (Hne & Hchs & Hm).
    split; [by apply dict_set_NoDup|]. intros k w. rewrite dict_get_set.
    case_decide as Hk; [subst k; intros [= <-]|intros Hw].
    + split_and!.
      * by destruct v.
      * rewrite fmap_app. apply NoDup_app. split_and!; [done| |apply NoDup_singleton].
        by intros x Hx ->%list_elem_of_singleton.
      * intros g ch [Hg|[= -> ->]%list_elem_of_singleton]%elem_of_app.
        -- destruct (Hm g ch Hg) as (? & ? & ? & ?).
           split_and!; [|done..]. apply elem_of_app. by left.
        -- split_and!; [|done..]. apply elem_of_app. right. apply list_elem_of_here.
    + by apply (claimed_seen seen f d (conj Hnd Hd)).
  - intros [= <-]. destruct Hc as [Hnd Hd].
    split; [by apply dict_set_NoDup|]. intros k w. rewrite dict_get_set.
    case_decide as Hk; [subst k; intros [= <-]|intros Hw].
    + split_and!; [done|apply NoDup_singleton|].
      intros g ch [= -> ->]%list_elem_of_singleton.
      split_and!; [|done..]. apply elem_of_app. right. apply list_elem_of_here.
    + by apply (claimed_seen seen f d (conj Hnd Hd)).
Qed.

Lemma search_loop_claimed fs seen d d' :
  claimed seen d → search_loop eqs d fs = Some d' → claimed (seen ++ fs) d'.
Proof.
  revert seen d. induction fs as [|f fs IH]; intros seen d Hc; simpl.
  - intros [= <-]. by rewrite app_nil_r.
  - destruct (search_step eqs d f) as [d1|] eqn:Hs; [|done]. simpl.
    intros Hl. rewrite cons_middle, app_assoc.
    eapply IH; [|done]. by eapply search_step_claimed.
Qed.

(** [f in flat_d] is true only through a comparison that is true, and
    [flat_d] holds one-character strings only. *)
Lemma py_in_true f l :
  py_in eqs f l = Some true → ∃ y, y ∈ l ∧ eqs f y = Some true.
Proof.
  induction l as [|y l IH]; simpl; [done|].
  destruct (eqs f y) as [[|]|] eqn:Hy; simpl; [|intros Hl|done].
  - intros _. exists y. split; [apply list_elem_of_here|done].
  - destruct (IH Hl) as (z & Hz & Hfz). exists z.
    split; [by apply list_elem_of_further|done].
Qed.

Lemma chars_one_character s y : y ∈ Py.chars s → ∃ c, y = String c "".
Proof.
  induction s as [|a s IH]; simpl; [by intros ?%elem_of_nil|].
  intros [->|Hy]%elem_of_cons; [by eexists|by apply IH].
Qed.

(** With no comparison with a one-character string ever true, every visited
    file with a channel token finds its base and token taken, and every
    member is the first visited file with its base and token. *)
Definition first_wins (seen : list AudioFile)
    (d : list (string * list (AudioFile * string))) : Prop :=
  (∀ g, g ∈ seen → channelnum g ≠ "" →
     ∃ v, dict_get (filebase g) d = Some v ∧ channelnum g ∈ v.*2)
  ∧ ∀ k v f ch, dict_get k d = Some v → (f, ch) ∈ v →
      ∃ j, seen !! j = Some f
        ∧ ∀ i g, (i < j)%nat → seen !! i = Some g →
            ¬ (filebase g = k ∧ channelnum g = ch).

Lemma first_wins_nil : first_wins [] [].
Proof.
  split; [by intros g ?%elem_of_nil|].
  intros k v f ch. unfold dict_get. simpl. by rewrite lookup_empty.
Qed.

Lemma first_wins_members seen f (d : list (string * list (AudioFile * string))) :
  (∀ k v g ch, dict_get k d = Some v → (g, ch) ∈ v →
     ∃ j, seen !! j = Some g
       ∧ ∀ i h, (i < j)%nat → seen !! i = Some h →
           ¬ (filebase h = k ∧ channelnum h = ch)) →
  ∀ k v g ch, dict_get k d = Some v → (g, ch) ∈ v →
     ∃ j, (seen ++ [f]) !! j = Some g
       ∧ ∀ i h, (i < j)%nat → (seen ++ [f]) !! i = Some h →
           ¬ (filebase h = k ∧ channelnum h = ch).
Proof.
  intros Hm k v g ch Hk Hg. destruct (Hm k v g ch Hk Hg) as (j & Hj & Hfirst).
  pose proof (lookup_lt_Some _ _ _ Hj) as Hlt.
  exists j. split; [by rewrite lookup_app_l|].
  intros i h Hi. rewrite lookup_app_l by lia. by apply Hfirst.
Qed.

Lemma search_step_first_wins seen d f d' :
  (∀ c, eqs f (String c "") ≠ Some true) →
  first_wins seen d → search_step eqs d f = Some d' → first_wins (seen ++ [f]) d'.
Proof.
  intros Hgate [Hall Hm]. unfold search_step.
  destruct (Py.truthy (channelnum f)) eqn:Hch; simpl.
  2:{ intros [= <-]. split; [|by apply first_wins_members].
      intros g [Hg| ->]%elem_of_snoc Hne; [by apply Hall|].
      apply truthy_spec in Hne. congruence. }
  apply truthy_spec in Hch.
  destruct (py_in eqs f _) as [[|]|] eqn:Hin; simpl; [|clear Hin|done].
  { apply py_in_true in Hin as (y & (s & [c ->]%chars_one_character & _)%list_elem_of_bind & Hy).
    by destruct (Hgate c). }
  destruct (dict_get (filebase f) d) as [v|] eqn:Hget.
  - case_bool_decide as Hdup; intros [= <-].
    { split; [|by apply first_wins_members].
      intros g [Hg| ->]%elem_of_snoc Hne; [by apply Hall|].
      by exists v. }
    split.
    + intros g Hg Hne. rewrite dict_get_set. case_decide as Hk.
      * eexists. split; [done|]. rewrite fmap_app. apply elem_of_app.
        apply elem_of_snoc in Hg as [Hg| ->].
        -- left. destruct (Hall g Hg Hne) as (w & Hw & Hgw). congruence.
        -- right. apply list_elem_of_here.
      * apply elem_of_snoc in Hg as [Hg| ->]; [by apply Hall|done].
    + intros k w g ch. rewrite dict_get_set.
      case_decide as Hk; [subst k; intros [= <-]|by apply first_wins_members].
      intros [Hg|[= -> ->]%list_elem_of_singleton]%elem_of_app.
      { by apply (first_wins_members seen f d Hm _ v). }
      exists (length seen). split; [by rewrite list_lookup_middle|].
      intros i h Hi. rewrite lookup_app_l by done. intros Hh [Hb Hc].
      destruct (Hall h) as (w & Hw & Hhw).
      { by eapply list_elem_of_lookup_2. }
      { by rewrite Hc. }
      rewrite Hb, Hget in Hw. injection Hw as <-. by rewrite Hc in Hhw.
  - intros [= <-]. split.
    + intros g Hg Hne. rewrite dict_get_set. case_decide as Hk.
      * eexists. split; [done|].
        apply elem_of_snoc in Hg as [Hg| ->].
        -- destruct (Hall g Hg Hne) as (w & Hw & Hgw). congruence.
        -- apply list_elem_of_here.
      * apply elem_of_snoc in Hg as [Hg| ->]; [by apply Hall|done].
    + intros k w g ch. rewrite dict_get_set.
      case_decide as Hk; [subst k; intros [= <-]|by apply first_wins_members].
      intros [= -> ->]%list_elem_of_singleton.
      exists (length seen). split; [by rewrite list_lookup_middle|].
      intros i h Hi. rewrite lookup_app_l by done. intros Hh [Hb Hc].
      destruct (Hall h) as (w & Hw & Hhw).
      { by eapply list_elem_of_lookup_2. }
      { by rewrite Hc. }
      rewrite Hb, Hget in Hw. done.
Qed.

Lemma search_loop_first_wins fs seen d d' :
  (∀ f c, f ∈ fs → eqs f (String c "") ≠ Some true) →
  first_wins seen d → search_loop eqs d fs = Some d' → first_wins (seen ++ fs) d'.
Proof.
  revert seen d. induction fs as [|f fs IH]; intros seen d Hgate Hw; simpl.
  - intros [= <-]. by rewrite app_nil_r.
  - destruct (search_step eqs d f) as [d1|] eqn:Hs; [|done]. simpl.
    intros Hl. rewrite cons_middle, app_assoc.
    eapply IH; [|by eapply search_step_first_wins; [|done..]; intros y; apply Hgate, list_elem_of_here|done].
    intros g y Hg. apply Hgate. by apply list_elem_of_further.
Qed.

(** The returned mapping, key by key. *)
Lemma search_result_lookup d k grp :
  NoDup d.*1 →
  search_result d !! k = Some grp
  ↔ ∃ v, dict_get k d = Some v ∧ (1 < length v)%nat ∧ grp = (Py.sorted snd v).*1.
Proof.
  intros Hnd. unfold search_result, dict_get.
  rewrite <-elem_of_list_to_map.
  2:{ rewrite <-list_fmap_compose.
      apply (sublist_NoDup _ d.*1); [done|].
      apply (fmap_sublist fst), sublist_filter. }
  rewrite list_elem_of_fmap. split.
  - intros ([k' v] & [= -> ->] & [Hlen Hin]%list_elem_of_filter).
    exists v. by rewrite <-elem_of_list_to_map.
  - intros (v & Hv%elem_of_list_to_map & Hlen & ->); [|done].
    exists (k, v). split; [done|]. by apply list_elem_of_filter.
Qed.

(** Once listed, the files come from the cache. *)
Lemma files_cached disk L fs L1 :
  files new disk L = Some (fs, L1) → fs ≠ [] → files new disk L1 = Some (fs, L1).
Proof.
  unfold files. destruct (_files L) as [|f0 fs0] eqn:Hc.
  - destruct (_search_folder new disk L (_folderpath L)) as [l|]; [|done]. simpl.
    intros [= <- <-] Hne. simpl. by destruct l.
  - intros [= <- <-] _. by rewrite Hc.
Qed.

(** The two ways [_search_for_join] returns. *)
Lemma search_for_join_inv disk L groups L' :
  _search_for_join new eqs disk L = Some (groups, L') →
  groups = ∅
  ∨ ∃ fs d, files new disk L = Some (fs, L') ∧ (1 < length fs)%nat
      ∧ search_loop eqs [] fs = Some d ∧ groups = search_result d.
Proof.
  unfold _search_for_join, __len__.
  destruct (negb (String.eqb (_folderpath L) "")); simpl; [|intros [= <- <-]; by left].
  destruct (files new disk L) as [[fs L1]|] eqn:Hf; simpl; [|done].
  destruct (Nat.leb_spec (length fs) 1) as [Hle|Hlt]; [intros [= <- <-]; by left|].
  rewrite (files_cached disk L fs L1 Hf) by (intros ->; simpl in Hlt; lia). simpl.
  destruct (search_loop eqs [] fs) as [d|] eqn:Hl; simpl; [|done].
  intros [= <- <-]. right. by exists fs, d.
Qed.

(** The members of a claimed list, seen through their tokens. *)
Lemma tokens_of_members (v : list (AudioFile * string)) :
  (∀ f ch, (f, ch) ∈ v → channelnum f = ch) → channelnum <$> v.*1 = v.*2.
Proof.
  induction v as [|[f ch] v IH]; intros Hv; [done|].
  rewrite !fmap_cons. simpl. f_equal.
  - apply Hv, list_elem_of_here.
  - apply IH. intros g c Hg. by apply Hv, list_elem_of_further.
Qed.

Lemma sorted_by_token (s : list (AudioFile * string)) :
  (∀ f ch, (f, ch) ∈ s → channelnum f = ch) →
  NoDup s.*2 →
  StronglySorted (key_le snd) s →
  StronglySorted
    (λ f1 f2, String.leb (channelnum f1) (channelnum f2) = true
              ∧ channelnum f1 ≠ channelnum f2) s.*1.
Proof.
  intros Hs Hnd Hsort. induction Hsort as [|[f ch] s Hsort IH Hhd]; [constructor|].
  rewrite fmap_cons in Hnd. apply NoDup_cons in Hnd as [Hnin Hnd].
  rewrite fmap_cons. constructor.
  - apply IH; [|done]. intros g c Hg. by apply Hs, list_elem_of_further.
  - apply Forall_fmap, Forall_forall. intros [g c] Hg. simpl.
    rewrite (Hs f ch) by apply list_elem_of_here.
    rewrite (Hs g c) by (by apply list_elem_of_further).
    split.
    + rewrite Forall_forall in Hhd. apply (Hhd _ Hg).
    + intros ->. apply Hnin. simpl. apply list_elem_of_fmap. by exists (g, c).
Qed.

(** C4. Every join group that [_search_for_join] returns holds files of the
    base it is keyed by, in strictly ascending order of their channel tokens
    compared as character strings ([String.leb]: code point by code point,
    a proper prefix first). Numeric tokens are not compared as numbers. *)
Theorem join_groups_sorted_by_token_string disk L groups L' :
  _search_for_join new eqs disk L = Some (groups, L') →
  ∀ k g, groups !! k = Some g →
    Forall (λ f, filebase f = k) g
    ∧ StronglySorted
        (λ f1 f2, String.leb (channelnum f1) (channelnum f2) = true
                  ∧ channelnum f1 ≠ channelnum f2) g.
Proof.
  intros [->|(fs & d & _ & _ & Hloop & ->)]%search_for_join_inv k g;
    [by rewrite lookup_empty|].
  apply (search_loop_claimed fs [] [] d claimed_nil) in Hloop as [Hnd Hd].
  intros (v & Hv & _ & ->)%search_result_lookup; [|done].
  destruct (Hd k v Hv) as (_ & Hch & Hm).
  assert (∀ f ch, (f, ch) ∈ Py.sorted snd v → (f, ch) ∈ v) as Hback.
  { intros f ch. by rewrite sorted_perm. }
  split.
  - apply Forall_fmap, Forall_forall. intros [f ch] Hf%Hback. simpl.
    by destruct (Hm f ch Hf) as (_ & ? & _).
  - apply sorted_by_token.
    + intros f ch Hf%Hback. by destruct (Hm f ch Hf) as (_ & _ & ? & _).
    + by rewrite sorted_perm.
    + apply sorted_sorted.
Qed.

(** C5. In the mapping [_search_for_join] returns, every group has at least
    two members, no member twice and no channel token twice; every member
    carries a non-empty channel token and the base the group is keyed by, so
    a file is in at most one group. Every member is one of the listed files;
    and when no comparison of a listed file with a one-character string is
    true, the member is the first listed file with its base and token. *)
Theorem join_groups_invariants disk L groups L' :
  _search_for_join new eqs disk L = Some (groups, L') →
  (∀ k g, groups !! k = Some g →
     (2 ≤ length g)%nat ∧ NoDup g ∧ NoDup (channelnum <$> g)
     ∧ ∀ f, f ∈ g → channelnum f ≠ "" ∧ filebase f = k)
  ∧ (∀ k1 k2 g1 g2 f,
       groups !! k1 = Some g1 → groups !! k2 = Some g2 →
       f ∈ g1 → f ∈ g2 → k1 = k2)
  ∧ (∀ k g f, groups !! k = Some g → f ∈ g →
       ∃ fs, files new disk L = Some (fs, L') ∧ f ∈ fs
         ∧ ((∀ h c, h ∈ fs → eqs h (String c "") ≠ Some true) →
            ∃ j, fs !! j = Some f
              ∧ ∀ i h, (i < j)%nat → fs !! i = Some h →
                  ¬ (filebase h = k ∧ channelnum h = channelnum f))).
Proof.
  intros [->|(fs & d & Hfiles & _ & Hloop & ->)]%search_for_join_inv.
  { split_and!; intros *; by rewrite lookup_empty. }
  pose proof (search_loop_claimed fs [] [] d claimed_nil Hloop) as [Hnd Hd].
  assert (∀ k g, search_result d !! k = Some g →
    ∃ v, dict_get k d = Some v ∧ (1 < length v)%nat ∧ g ≡ₚ v.*1
      ∧ channelnum <$> v.*1 = v.*2 ∧ NoDup v.*2
      ∧ ∀ f, f ∈ g → (f, channelnum f) ∈ v ∧ f ∈ fs
                     ∧ filebase f = k ∧ channelnum f ≠ "") as Hgrp.
  { intros k g (v & Hv & Hlen & ->)%search_result_lookup; [|done].
    destruct (Hd k v Hv) as (_ & Hch & Hm).
    exists v. split_and!; [done|done|by rewrite sorted_perm| |done|].
    - apply tokens_of_members. intros f ch Hf.
      by destruct (Hm f ch Hf) as (_ & _ & ? & _).
    - intros f. rewrite sorted_perm.
      intros ([g ch] & -> & Hg)%list_elem_of_fmap. simpl.
      destruct (Hm g ch Hg) as (? & ? & <- & ?). done. }
  split_and!.
  - intros k g Hg. destruct (Hgrp k g Hg) as (v & _ & Hlen & Hperm & Htok & Hch & Hm).
    assert (NoDup v.*1) as Hv1.
    { apply (NoDup_fmap_1 channelnum). by rewrite Htok. }
    split_and!.
    + rewrite Hperm, length_fmap. lia.
    + by rewrite Hperm.
    + by rewrite Hperm, Htok.
    + intros f Hf. by destruct (Hm f Hf) as (_ & _ & ? & ?).
  - intros k1 k2 g1 g2 f Hg1 Hg2 Hf1 Hf2.
    destruct (Hgrp k1 g1 Hg1) as (v1 & _ & _ & _ & _ & _ & Hm1).
    destruct (Hgrp k2 g2 Hg2) as (v2 & _ & _ & _ & _ & _ & Hm2).
    destruct (Hm1 f Hf1) as (_ & _ & Hk1 & _).
    destruct (Hm2 f Hf2) as (_ & _ & Hk2 & _). congruence.
  - intros k g f Hg Hf.
    destruct (Hgrp k g Hg) as (v & Hv & _ & _ & _ & _ & Hm).
    destruct (Hm f Hf) as (Hfv & Hfs & _ & _).
    exists fs. split_and!; [done|done|]. intros Hgate.
    pose proof (search_loop_first_wins fs [] [] d Hgate first_wins_nil Hloop)
      as [_ Hfirst].
    apply (Hfirst k v f (channelnum f) Hv Hfv).
Qed.

End search.

(** ** A folder with channel files of one take *)

Definition tone : Audio := mkAudio 44100 "PCM_16" [[(1 # 2)%Q; (-1 # 2)%Q]].

Definition amplitude_floor : Q := (1 # 100000)%Q.

(** The object for [proj/name.wav] with the given base and channel token. *)
Definition channel_file (name base token : string) : AudioFile :=
  mkAudioFile ("proj/" +:+ name +:+ ".wav") "proj" ".wav" ("proj/" +:+ name)
    base token (Some tone) amplitude_floor amplitude_floor Default [].

Definition take_2 : AudioFile := channel_file "take.2" "take" "2".
Definition take_10 : AudioFile := channel_file "take.10" "take" "10".
Definition take_R : AudioFile := channel_file "take.R" "take" "2".
Definition solo_1 : AudioFile := channel_file "solo.1" "solo" "1".
Definition notes : AudioFile := channel_file "notes" "notes" "".

Definition take_folder : Disk :=
  <["proj" := Dir]> (<["proj/take.2.wav" := File tone]>
  (<["proj/take.10.wav" := File tone]> (<["proj/notes.wav" := File tone]>
  (<["proj/take.R.wav" := File tone]> (<["proj/solo.1.wav" := File tone]>
  (<["proj/readme.txt" := File tone]> ∅)))))).

(** The objects the constructor yields for the paths of [take_folder]; the
    token of [take.R] is 2, as [test_file_names] has it for [sin.R]. *)
Definition take_objects (disk : Disk) (p : string) (nt et : Value) : AudioFile :=
  if String.eqb p "proj/take.2.wav" then take_2
  else if String.eqb p "proj/take.10.wav" then take_10
  else if String.eqb p "proj/take.R.wav" then take_R
  else if String.eqb p "proj/solo.1.wav" then solo_1
  else notes.

(** Equality by path, for a [str] operand. *)
Definition eq_by_path (f : AudioFile) (y : string) : option bool :=
  Some (String.eqb (filepath f) y).

Definition take_list : FileList := __init__ take_folder (Some "proj") None.

(** The listing of [take_folder], and the collection once it is cached. *)
Definition take_listing : list AudioFile := [solo_1; notes; take_10; take_2; take_R].

Definition take_listed : FileList :=
  mkFileList default_options take_listing None None "proj".

Definition take_groups : gmap string (list AudioFile) := {[ "take" := [take_10; take_2] ]}.

Lemma take_folder_files :
  files take_objects take_folder take_list = Some (take_listing, take_listed).
Proof. by vm_compute. Qed.

Lemma take_folder_groups :
  _search_for_join take_objects eq_by_path take_folder take_list
  = Some (take_groups, take_listed).
Proof. by vm_compute. Qed.

(** [join_groups_sorted_by_token_string] on [take_folder]. *)
Lemma take_groups_sorted_by_token_string :
  _search_for_join take_objects eq_by_path take_folder take_list
  = Some (take_groups, take_listed)
  ∧ ∀ k g, take_groups !! k = Some g →
      Forall (λ f, filebase f = k) g
      ∧ StronglySorted
          (λ f1 f2, String.leb (channelnum f1) (channelnum f2) = true
                    ∧ channelnum f1 ≠ channelnum f2) g.
Proof.
  split; [by vm_compute|].
  apply (join_groups_sorted_by_token_string take_objects eq_by_path
           take_folder take_list take_groups take_listed).
  by vm_compute.
Defined.

(** C4, as stated, fails: the group of [take] lists channel 10 before
    channel 2, because the tokens are compared as strings. *)
Lemma channel_10_precedes_channel_2 :
  fst <$> _search_for_join take_objects eq_by_path take_folder take_list
  = Some ({[ "take" := [take_10; take_2] ]} : gmap string (list AudioFile))
  ∧ channelnum take_10 = "10" ∧ channelnum take_2 = "2"
  ∧ String.leb "10" "2" = true
  ∧ (2 < 10)%nat.
Proof. split_and!; [by vm_compute|done|done|done|lia]. Qed.

(** [join_groups_invariants] on [take_folder]: [notes] has no token, [solo]
    has a single member, and [take.R] loses token 2 to [take.2], which is
    listed first. *)
Lemma take_groups_invariants :
  _search_for_join take_objects eq_by_path take_folder take_list
  = Some (take_groups, take_listed)
  ∧ (∀ k g, take_groups !! k = Some g →
       (2 ≤ length g)%nat ∧ NoDup g ∧ NoDup (channelnum <$> g)
       ∧ ∀ f, f ∈ g → channelnum f ≠ "" ∧ filebase f = k)
  ∧ (∀ k1 k2 g1 g2 f,
       take_groups !! k1 = Some g1 → take_groups !! k2 = Some g2 →
       f ∈ g1 → f ∈ g2 → k1 = k2)
  ∧ (∀ k g f, take_groups !! k = Some g → f ∈ g →
       ∃ fs, files take_objects take_folder take_list = Some (fs, take_listed)
         ∧ f ∈ fs
         ∧ ((∀ h c, h ∈ fs → eq_by_path h (String c "") ≠ Some true) →
            ∃ j, fs !! j = Some f
              ∧ ∀ i h, (i < j)%nat → fs !! i = Some h →
                  ¬ (filebase h = k ∧ channelnum h = channelnum f)))
  ∧ (∀ h c, h ∈ take_listing → eq_by_path h (String c "") ≠ Some true).
Proof.
  split; [by vm_compute|].
  pose proof (join_groups_invariants take_objects eq_by_path
                take_folder take_list take_groups take_listed
                ltac:(by vm_compute)) as (Hgroup & Hone & Hfirst).
  split_and!; [exact Hgroup|exact Hone|exact Hfirst|].
  - intros h c Hh. unfold take_listing in Hh.
    repeat (apply elem_of_cons in Hh as [->|Hh]); [..|by apply elem_of_nil in Hh];
      by destruct c as [[] [] [] [] [] [] [] []].
Defined.

(** ** [AudioFile.remove] *)

(** C6. For a file that exists and was loaded, [remove] without [forced]
    deletes it exactly when it is silent and otherwise leaves the disk as it
    was; with [forced] it deletes the file whatever its content. No other
    path is touched. *)
Theorem remove_iff_silent_or_forced (f : AudioFile) (a : Audio) (disk : Disk) :
  file f = Some a →
  disk !! filepath f = Some (File a) →
  ∃ silent, audio_file.isEmpty f = Some silent
    ∧ (audio_file.remove f false disk !! filepath f = None ↔ silent = true)
    ∧ (silent = true → audio_file.remove f false disk = delete (filepath f) disk)
    ∧ (silent = false → audio_file.remove f false disk = disk)
    ∧ audio_file.remove f true disk = delete (filepath f) disk
    ∧ audio_file.remove f true disk !! filepath f = None
    ∧ ∀ forced q, q ≠ filepath f →
        audio_file.remove f forced disk !! q = disk !! q.
Proof.
  intros Hfile Hdisk. unfold audio_file.remove, audio_file.isEmpty.
  rewrite Hfile. simpl.
  set (silent := forallb _ _). exists silent. split; [done|].
  unfold os.remove. destruct silent; simpl.
  - split_and!; [|done|done|done|apply lookup_delete_eq|].
    + by rewrite lookup_delete_eq.
    + intros forced q Hq. by rewrite lookup_delete_ne.
  - split_and!; [|done|done|done|apply lookup_delete_eq|].
    + rewrite Hdisk. split; done.
    + intros [|] q Hq; simpl; [by rewrite lookup_delete_ne|done].
Qed.

(** ** [AudioFile.join] *)





(** ** [AudioFile.proceed] under read-only *)

(** C3. Under [read_only], [proceed] reports the display name of the action
    it resolved and does nothing else: no operation is invoked and the disk
    is left as it was, for every action, [Monoize] included. *)
Theorem proceed_read_only_previews (correlated : list Q → list Q → bool)
    (f : AudioFile) (group : list string) (o : audio_file.Options) (disk : Disk) :
  audio_file.read_only o = true →
  audio_file.proceed correlated f group o disk
  = audio_file.mkProceeded
      (action_name (audio_file.resolved_action correlated f group o)) None disk.
Proof. intros Hro. unfold audio_file.proceed. by rewrite Hro. Qed.

(** A stereo file with twice the same channel, its action set to [Monoize]. *)
Definition twin : Audio :=
  mkAudio 44100 "PCM_16" [[(1 # 2)%Q; (-1 # 2)%Q]; [(1 # 2)%Q; (-1 # 2)%Q]].

Definition twin_file : AudioFile :=
  mkAudioFile "proj/twin.wav" "proj" ".wav" "proj/twin" "twin" ""
    (Some twin) amplitude_floor amplitude_floor Monoize [].

Definition twin_folder : Disk := <["proj" := Dir]> (<["proj/twin.wav" := File twin]> ∅).

Definition preview : audio_file.Options :=
  audio_file.mkOptions true None None false None "." [] None.

(** Channels are similar when they are equal, sample by sample. *)
Definition same_samples (l r : list Q) : bool :=
  bool_decide (Forall2 (λ x y, Qeq_bool x y = true) l r).

(** [proceed_read_only_previews] on [twin_file]. *)
Lemma twin_previewed :
  audio_file.read_only preview = true
  ∧ audio_file.proceed same_samples twin_file [] preview twin_folder
    = audio_file.mkProceeded "Monoize" None twin_folder.
Proof.
  split; [done|].
  by rewrite (proceed_read_only_previews same_samples twin_file [] preview twin_folder).
Defined.

(** C3, as stated, fails: with the action [Monoize] and [read_only] set,
    [proceed] reports [Monoize] but invokes nothing and leaves the stereo
    file as it is, although [monoize] itself would rewrite it. *)
Lemma monoize_previewed_not_run :
  audio_file.reported (audio_file.proceed same_samples twin_file [] preview twin_folder) = "Monoize"
  ∧ audio_file.invoked (audio_file.proceed same_samples twin_file [] preview twin_folder) = None
  ∧ audio_file.disk_after (audio_file.proceed same_samples twin_file [] preview twin_folder)
    = twin_folder
  ∧ audio_file.monoize twin_file None twin_folder !! "proj/twin.wav"
    ≠ twin_folder !! "proj/twin.wav".
Proof. split_and!; [done|done|done|]. by vm_compute. Qed.

(** ** The cases of [test_remove] and [test_join_different_size] *)

Definition hush : Audio := mkAudio 44100 "PCM_16" [[0%Q; 0%Q]; [0%Q; 0%Q]].

Definition blank : Audio := mkAudio 44100 "PCM_16" [[]].

Definition studio : Disk :=
  <["proj" := Dir]> (<["proj/sin-m.wav" := File tone]>
  (<["proj/0-s.wav" := File hush]> (<["proj/empty.wav" := File blank]> ∅))).

(** The object for [proj/name.wav], loaded from [studio]. *)
Definition opened (name : string) : AudioFile :=
  mkAudioFile ("proj/" +:+ name +:+ ".wav") "proj" ".wav" ("proj/" +:+ name)
    name "" (audio_file.load studio ("proj/" +:+ name +:+ ".wav"))
    amplitude_floor amplitude_floor Default [].

(** The four cases of [test_remove]: does the file exist afterwards? *)
Example test_remove_cases :
  os.path_exists (audio_file.remove (opened "empty") false studio) "proj/empty.wav" = false
  ∧ os.path_exists (audio_file.remove (opened "0-s") false studio) "proj/0-s.wav" = false
  ∧ os.path_exists (audio_file.remove (opened "sin-m") false studio) "proj/sin-m.wav" = true
  ∧ os.path_exists (audio_file.remove (opened "sin-m") true studio) "proj/sin-m.wav" = false.
Proof. by vm_compute. Qed.

(** [remove_iff_silent_or_forced] on the silent file [0-s]. *)
Lemma silent_file_removed :
  file (opened "0-s") = Some hush
  ∧ studio !! filepath (opened "0-s") = Some (File hush)
  ∧ ∃ silent, audio_file.isEmpty (opened "0-s") = Some silent
      ∧ (audio_file.remove (opened "0-s") false studio !! filepath (opened "0-s") = None
         ↔ silent = true)
      ∧ (silent = true →
         audio_file.remove (opened "0-s") false studio
         = delete (filepath (opened "0-s")) studio)
      ∧ (silent = false → audio_file.remove (opened "0-s") false studio = studio)
      ∧ audio_file.remove (opened "0-s") true studio
        = delete (filepath (opened "0-s")) studio
      ∧ audio_file.remove (opened "0-s") true studio !! filepath (opened "0-s") = None
      ∧ ∀ forced q, q ≠ filepath (opened "0-s") →
          audio_file.remove (opened "0-s") forced studio !! q = studio !! q.
Proof.
  split; [done|]. split; [done|].
  by apply (remove_iff_silent_or_forced (opened "0-s") hush studio).
Defined.



(** ** The remaining parametrised cases of the test-suite *)

(** The object [AudioFile("empty")] of [test_proceed_read_only]: the path does
    not exist, nothing was loaded. *)
Definition unopened (a : Action) : AudioFile :=
  mkAudioFile "empty" "" "" "empty" "empty" "" None amplitude_floor amplitude_floor a [].

(** [test_proceed_read_only]: the reported names, and [monoize] not called. *)
Example test_proceed_read_only_cases :
  audio_file.reported (audio_file.proceed same_samples (unopened Default) [] preview studio)
  = "None"
  ∧ audio_file.reported (audio_file.proceed same_samples (unopened Monoize) [] preview studio)
    = "Monoize"
  ∧ audio_file.invoked (audio_file.proceed same_samples (unopened Monoize) [] preview studio)
    = None.
Proof. by vm_compute. Qed.

(** The objects of [test_analyze_actions]: a silent stereo file, a stereo
    file with twice the same channel, and the left channel of a take, once
    with a pending sibling and once without. *)
Definition analysed (name base token : string) (a : Audio) (siblings : list string)
    : AudioFile :=
  mkAudioFile ("proj/" +:+ name +:+ ".wav") "proj" ".wav" ("proj/" +:+ name)
    base token (Some a) amplitude_floor amplitude_floor Default siblings.

Definition given (remove monoize : option bool) : audio_file.Options :=
  audio_file.mkOptions false remove monoize false None "." [] None.

Example test_analyze_actions_cases :
  audio_file.default_action same_samples (analysed "0-s" "0-s" "" hush []) []
    (given None None) = Remove
  ∧ audio_file.default_action same_samples (analysed "0-s" "0-s" "" hush []) []
      (given (Some false) None) = NoAction
  ∧ audio_file.default_action same_samples (analysed "sin-s" "sin-s" "" twin []) []
      (given None None) = Monoize
  ∧ audio_file.default_action same_samples (analysed "sin-s" "sin-s" "" twin []) []
      (given None (Some false)) = NoAction
  ∧ audio_file.default_action same_samples (analysed "sin.L" "sin" "1" tone ["1"])
      ["proj/sin.L.wav"; "1"] (given None None) = Join
  ∧ audio_file.default_action same_samples (analysed "sin.L" "sin" "1" tone []) []
      (given None None) = NoAction.
Proof. by vm_compute. Qed.

(** The cases of [test_get_newfile_path]. *)
Definition in_audio_files (name base token : string) : AudioFile :=
  mkAudioFile ("tests/audio_files/" +:+ name +:+ ".wav") "tests/audio_files" ".wav"
    ("tests/audio_files/" +:+ name) base token None amplitude_floor amplitude_floor
    Default [].

Example test_get_newfile_path_cases :
  audio_file.get_newfile_path (in_audio_files "sin-m" "sin-m" "") None
  = "tests/audio_files/sin-m.wav"
  ∧ audio_file.get_newfile_path (in_audio_files "sin.L" "sin" "1") None
    = "tests/audio_files/sin.wav"
  ∧ audio_file.get_newfile_path (in_audio_files "sin-m" "sin-m" "") (Some "saw")
    = "tests/audio_files/saw.wav"
  ∧ audio_file.get_newfile_path (in_audio_files "sin.L" "sin" "1") (Some "saw")
    = "tests/audio_files/saw.wav"
  ∧ audio_file.get_newfile_path (in_audio_files "sin.L" "sin" "1")
      (Some "tests/audio_files/.wav/bak/saw")
    = "tests/audio_files/.wav/bak/saw".
Proof. by vm_compute. Qed.

(** * Further properties of [folder_handler.py] *)

(** ** [_is_audio_file] *)

Lemma upper_char_fixes (c : ascii) :
  (c = "."%char ∨ c = "/"%char) → ∀ a, Ascii.eqb (Py.upper_char a) c = Ascii.eqb a c.
Proof.
  intros [-> | ->] a; by destruct a as [[] [] [] [] [] [] [] []].
Qed.

Lemma upper_app (s1 s2 : string) : Py.upper (s1 +:+ s2) = Py.upper s1 +:+ Py.upper s2.
Proof.
  induction s1 as [|a s1 IH]; [done|].
  change (String (Py.upper_char a) (Py.upper (s1 +:+ s2))
          = String (Py.upper_char a) (Py.upper s1 +:+ Py.upper s2)).
  by rewrite IH.
Qed.

Lemma upper_char_idemp a : Py.upper_char (Py.upper_char a) = Py.upper_char a.
Proof. by destruct a as [[] [] [] [] [] [] [] []]. Qed.

Lemma upper_idemp s : Py.upper (Py.upper s) = Py.upper s.
Proof. induction s as [|a s IH]; simpl; [done|]. by rewrite upper_char_idemp, IH. Qed.

Lemma rpartition_upper c s :
  (c = "."%char ∨ c = "/"%char) →
  Py.rpartition c (Py.upper s)
  = (λ ht, (Py.upper ht.1, Py.upper ht.2)) <$> Py.rpartition c s.
Proof.
  intros Hc. induction s as [|a s IH]; simpl; [done|].
  rewrite IH. destruct (Py.rpartition c s) as [[h t]|]; simpl; [done|].
  rewrite (upper_char_fixes c Hc). by destruct (Ascii.eqb a c).
Qed.

Lemma all_char_upper c s :
  (c = "."%char ∨ c = "/"%char) → Py.all_char c (Py.upper s) = Py.all_char c s.
Proof.
  intros Hc. induction s as [|a s IH]; simpl; [done|].
  by rewrite IH, (upper_char_fixes c Hc).
Qed.

Lemma splitext_upper p :
  os_path.splitext (Py.upper p)
  = (Py.upper (os_path.splitext p).1, Py.upper (os_path.splitext p).2).
Proof.
  unfold os_path.splitext.
  rewrite (rpartition_upper "/") by (by right).
  destruct (Py.rpartition "/" p) as [[h t]|]; simpl.
  - rewrite (rpartition_upper ".") by (by left).
    destruct (Py.rpartition "." t) as [[stem e]|]; simpl; [|done].
    rewrite (all_char_upper ".") by (by left).
    destruct (Py.all_char "." stem); [done|].
    cbn [fst snd]. by rewrite !upper_app.
  - rewrite (rpartition_upper ".") by (by left).
    destruct (Py.rpartition "." p) as [[stem e]|]; simpl; [|done].
    rewrite (all_char_upper ".") by (by left).
    destruct (Py.all_char "." stem); [done|].
    cbn [fst snd]. by rewrite !upper_app.
Qed.

(** X1. [_is_audio_file] does not depend on letter case: two names that
    differ only in the case of their letters are classified alike. *)
Theorem is_audio_file_ignores_case (f g : string) :
  Py.upper f = Py.upper g → _is_audio_file f = _is_audio_file g.
Proof.
  intros Hfg.
  assert (∀ x, _is_audio_file x = _is_audio_file (Py.upper x)) as Hup.
  { intros x. unfold _is_audio_file. cbv zeta.
    rewrite splitext_upper. cbn [snd]. by rewrite upper_idemp. }
  by rewrite (Hup f), (Hup g), Hfg.
Qed.

(** [c in s] for a one-character [c]. *)
Fixpoint occurs (c : ascii) (s : string) : bool :=
  match s with
  | "" => false
  | String a s' => Ascii.eqb a c || occurs c s'
  end.

Lemma rpartition_absent c s : occurs c s = false → Py.rpartition c s = None.
Proof.
  induction s as [|a s IH]; simpl; [done|].
  intros [Ha Hs]%orb_false_elim. by rewrite IH, Ha.
Qed.

Lemma rpartition_last c s1 s2 :
  occurs c s2 = false → Py.rpartition c (s1 +:+ String c s2) = Some (s1, s2).
Proof.
  intros Hs2. induction s1 as [|a s1 IH].
  - change (Py.rpartition c (String c s2) = Some ("", s2)). simpl.
    by rewrite rpartition_absent, Ascii.eqb_refl.
  - change (Py.rpartition c (String a (s1 +:+ String c s2)) = Some (String a s1, s2)).
    simpl. by rewrite IH.
Qed.

Lemma occurs_app c s1 s2 : occurs c (s1 +:+ s2) = occurs c s1 || occurs c s2.
Proof.
  induction s1 as [|a s1 IH]; [done|].
  change (Ascii.eqb a c || occurs c (s1 +:+ s2)
          = Ascii.eqb a c || occurs c s1 || occurs c s2).
  by rewrite IH, orb_assoc.
Qed.

(** X2. On a name without a slash, written as a stem, a dot and a dotless
    ending, [_is_audio_file] holds exactly when the ending is wav or wave in
    any letter case and the stem has a character other than a dot. A name
    such as [.wav] or [..wave], whose stem is empty or all dots, has no
    extension and is not an audio file. *)
Theorem is_audio_file_plain_name (stem ext : string) :
  occurs "/" stem = false → occurs "/" ext = false → occurs "." ext = false →
  _is_audio_file (stem +:+ "." +:+ ext)
  = negb (Py.all_char "." stem)
    && bool_decide (Py.upper ext = "WAV" ∨ Py.upper ext = "WAVE").
Proof.
  intros Hstem Hext Hdot. unfold _is_audio_file, os_path.splitext. cbv zeta.
  rewrite rpartition_absent.
  2:{ rewrite occurs_app, Hstem. change ("." +:+ ext) with (String "." ext).
      simpl. by rewrite Hext. }
  change ("." +:+ ext) with (String "." ext).
  rewrite rpartition_last by done.
  destruct (Py.all_char "." stem); cbn [snd negb andb]; [by vm_compute|].
  change (Py.upper ("." +:+ ext)) with (String "." (Py.upper ext)).
  change (Py.upper <$> extensions) with [".WAV"; ".WAVE"].
  apply bool_decide_ext. rewrite !elem_of_cons, elem_of_nil. split.
  - intros [[= ->]|[[= ->]|[]]]; [by left|by right].
  - intros [->| ->]; [by left|right; by left].
Qed.

(** ** [_iterate_files] *)

(** The names [os.listdir] yields, joined to the folder again, are paths of
    the disk, in the order of the disk and none twice. *)
Lemma listed_paths_sublist (folder : string) (keep : string → bool) (keys : list string) :
  (λ n, os_path.join folder [n])
    <$> filter (λ n, keep n)
          (omap (λ p, let n := (os_path.split p).2 in
                      if Py.truthy n && String.eqb (os_path.join folder [n]) p
                      then Some n else None) keys)
  `sublist_of` keys.
Proof.
  induction keys as [|p keys IH]; [done|]. cbn [omap list_omap].
  cbv zeta. destruct (Py.truthy (os_path.split p).2) eqn:Ht; cbn [andb].
  - destruct (String.eqb_spec (os_path.join folder [(os_path.split p).2]) p) as [Hp|_].
    + rewrite filter_cons. destruct (decide (keep (os_path.split p).2)).
      * rewrite fmap_cons, Hp. by apply sublist_skip.
      * by apply sublist_cons.
    + by apply sublist_cons.
  - by apply sublist_cons.
Qed.

(** X3. When [_iterate_files] returns, the folder is a directory and every
    path it yields is on disk, is the folder joined with a name that
    [_is_audio_file] accepts, and is yielded once. *)
Theorem iterate_files_sound (disk : Disk) (folder : string) (l : list string) :
  _iterate_files disk folder = Some l →
  disk !! folder = Some Dir
  ∧ NoDup l
  ∧ ∀ p, p ∈ l →
      is_Some (disk !! p)
      ∧ ∃ n, p = os_path.join folder [n] ∧ _is_audio_file n = true.
Proof.
  unfold _iterate_files, _list_audio_files, os.listdir.
  destruct (disk !! folder) as [[|a]|] eqn:Hdir; simpl; [|done..].
  intros [= <-]. split; [done|].
  pose proof (listed_paths_sublist folder _is_audio_file (map_to_list disk).*1) as Hsub.
  split.
  - eapply sublist_NoDup; [|done]. apply NoDup_fst_map_to_list.
  - intros p Hp. split.
    + rewrite <-elem_of_dom. apply elem_of_dom.
      assert (p ∈ (map_to_list disk).*1) as ([q node] & -> & Hin)%list_elem_of_fmap.
      { by eapply elem_of_sublist. }
      apply elem_of_map_to_list in Hin. by eexists.
    + apply list_elem_of_fmap in Hp as (n & -> & [Hn _]%list_elem_of_filter).
      exists n. split; [done|]. by apply Is_true_true.
Qed.

(** ** Listing a folder *)

Section listing.

Variable new : Disk → string → Value → Value → AudioFile.
Variable eqs : AudioFile → string → option bool.

Lemma truthy_path p : p ≠ "" → Py.truthy p = true.
Proof. intros Hp. by apply truthy_spec. Qed.

Lemma path_exists_Some (disk : Disk) p node :
  disk !! p = Some node → os.path_exists disk p = true.
Proof. intros Hp. apply bool_decide_eq_true. by eexists. Qed.

Lemma listdir_not_directory (disk : Disk) folder :
  disk !! folder ≠ Some Dir → os.listdir disk folder = None.
Proof. unfold os.listdir. by destruct (disk !! folder) as [[|a]|]. Qed.

(** X4. What the constructor makes of its folder argument. No folder, the
    empty string or a path that is not on disk leave the folder path empty:
    the length is 0 and group detection returns no groups, with nothing
    listed. An existing regular file is accepted as folder path, and then
    [files], [__len__] and [_search_for_join] all raise. An existing
    directory is accepted and can be listed. *)
Theorem constructor_folder_cases (disk : Disk) (folder : option string)
    (options : option (gmap string Value)) :
  let L := __init__ disk folder options in
  (folder = None ∨ folder = Some "" ∨ (∃ p, folder = Some p ∧ disk !! p = None) →
     _folderpath L = "" ∧ _files L = []
     ∧ __len__ new disk L = Some (0, L)
     ∧ _search_for_join new eqs disk L = Some (∅, L))
  ∧ (∀ p a, folder = Some p → p ≠ "" → disk !! p = Some (File a) →
       _folderpath L = p ∧ _files L = []
       ∧ files new disk L = None
       ∧ __len__ new disk L = None
       ∧ _search_for_join new eqs disk L = None)
  ∧ (∀ p, folder = Some p → p ≠ "" → disk !! p = Some Dir →
       _folderpath L = p ∧ _files L = []
       ∧ is_Some (os.listdir disk p)).
Proof.
  unfold __init__.
  generalize (match options with
              | Some o => if decide (size o = 0) then default_options else o
              | None => default_options
              end).
  intros o. cbv zeta. split_and!.
  - intros Hf.
    assert (set_folderpath disk (mkFileList o [] None None "") folder
            = mkFileList o [] None None "") as ->.
    { destruct Hf as [->|[->|(p & -> & Hp)]]; unfold set_folderpath; [done|done|].
      assert (os.path_exists disk p = false) as ->; [|by rewrite andb_false_r].
      apply bool_decide_eq_false. rewrite Hp. by intros [? ?]. }
    done.
  - intros p a -> Hne Hp. unfold set_folderpath.
    rewrite (truthy_path p Hne), (path_exists_Some disk p _ Hp). simpl.
    assert (files new disk (mkFileList o [] None None p) = None) as Hfiles.
    { unfold files, _search_folder, _iterate_files, _list_audio_files. simpl.
      rewrite listdir_not_directory; [done|]. by rewrite Hp. }
    split_and!; [done|done|done|..].
    + unfold __len__. simpl. rewrite Hfiles.
      by destruct (String.eqb_spec p "").
    + unfold _search_for_join, __len__. simpl. rewrite Hfiles.
      by destruct (String.eqb_spec p "").
  - intros p -> Hne Hp. unfold set_folderpath.
    rewrite (truthy_path p Hne), (path_exists_Some disk p _ Hp). simpl.
    split_and!; [done|done|]. unfold os.listdir. rewrite Hp. by eexists.
Qed.


Lemma mapM_total {A B} (g : A → B) (l : list A) :
  mapM (λ x, Some (g x)) l = Some (g <$> l).
Proof. induction l as [|x l IH]; simpl; [done|]. by rewrite IH. Qed.

(** X5. Listing a directory with an empty cache. With both thresholds among
    the options, [files] is the constructor applied to the folder joined with
    each audio name, in listing order. With a threshold missing, [files]
    raises exactly when the directory holds an audio file; on a directory
    without audio files it returns the empty list. *)
Theorem files_need_thresholds_per_file (disk : Disk) (L : FileList) (names : list string) :
  _files L = [] →
  os.listdir disk (_folderpath L) = Some names →
  let audio := filter (λ n, _is_audio_file n) names in
  (∀ nt et,
     _options L !! "null_threshold" = Some nt →
     _options L !! "empty_threshold" = Some et →
     fst <$> files new disk L
     = Some ((λ n, new disk (os_path.join (_folderpath L) [n]) nt et) <$> audio))
  ∧ (_options L !! "null_threshold" = None ∨ _options L !! "empty_threshold" = None →
     (files new disk L = None ↔ audio ≠ [])
     ∧ (audio = [] → fst <$> files new disk L = Some [])).
Proof.
  intros Hcache Hdir audio.
  assert (_iterate_files disk (_folderpath L)
          = Some ((λ n, os_path.join (_folderpath L) [n]) <$> audio)) as Hit.
  { unfold _iterate_files, _list_audio_files. by rewrite Hdir. }
  split.
  - intros nt et Hnt Het. unfold files, _search_folder. rewrite Hcache, Hit. simpl.
    unfold _create_analysis. rewrite Hnt, Het. simpl.
    rewrite mapM_total. simpl. by rewrite <-list_fmap_compose.
  - intros Hmiss.
    assert (∀ f, _create_analysis new disk f (_options L) = None) as Hnone.
    { intros f. unfold _create_analysis.
      destruct Hmiss as [-> | Hm]; [done|]. rewrite Hm.
      by destruct (_options L !! "null_threshold"). }
    unfold files, _search_folder. rewrite Hcache, Hit. simpl.
    rewrite (mapM_ext _ (λ _, None)) by done.
    destruct audio as [|n audio']; simpl; [|done].
    split; [|done]. split; done.
Qed.

End listing.

(** ** [update_options] *)

(** [FileList.update_options(options)]: [dict.update] on [_options]. *)
Definition update_options (L : FileList) (options : gmap string Value) : FileList :=
  mkFileList (options ∪ _options L) (_files L) (_joinlists L) (_flat_joinlists L)
    (_folderpath L).

(** X6. [update_options] overrides the keys it is given and keeps every other
    key, so thresholds that are present stay present through any sequence of
    updates. A collection constructed without options, or with an empty
    [dict], therefore never misses a threshold in [_create_analysis]. A
    non-empty [dict] given to the constructor replaces the defaults as a
    whole. *)
Theorem default_thresholds_survive_updates (new : Disk → string → Value → Value → AudioFile)
    (disk : Disk) (folder : option string) (updates : list (gmap string Value)) :
  (∀ o : gmap string Value, size o ≠ 0 → ∀ options_folder,
     _options (__init__ disk options_folder (Some o)) = o)
  ∧ (∀ L o k,
     _options (update_options L o) !! k
     = match o !! k with Some v => Some v | None => _options L !! k end)
  ∧ (∀ L, is_Some (_options L !! "null_threshold") →
          is_Some (_options L !! "empty_threshold") →
          ∀ p, is_Some (_create_analysis new disk p
                          (_options (foldl update_options L updates))))
  ∧ (∀ p, is_Some (_create_analysis new disk p
                     (_options (foldl update_options (__init__ disk folder None) updates))))
  ∧ (∀ p, is_Some (_create_analysis new disk p
                     (_options (foldl update_options (__init__ disk folder (Some ∅)) updates)))).
Proof.
  assert (∀ L o k,
     _options (update_options L o) !! k
     = match o !! k with Some v => Some v | None => _options L !! k end) as Hlook.
  { intros L o k. unfold update_options. simpl. rewrite lookup_union.
    destruct (o !! k), (_options L !! k); done. }
  assert (∀ L, is_Some (_options L !! "null_threshold") →
          is_Some (_options L !! "empty_threshold") →
          ∀ p, is_Some (_create_analysis new disk p
                          (_options (foldl update_options L updates)))) as Hkeep.
  { induction updates as [|o updates IH]; intros L [nt Hnt] [et Het] p; simpl.
    - unfold _create_analysis. rewrite Hnt, Het. by eexists.
    - apply IH; rewrite Hlook.
      + destruct (o !! "null_threshold"); [by eexists|]. by rewrite Hnt.
      + destruct (o !! "empty_threshold"); [by eexists|]. by rewrite Het. }
  assert (∀ o : option (gmap string Value), (o = None ∨ o = Some ∅) →
     _options (__init__ disk folder o) = default_options) as Hinit.
  { intros o Ho. unfold __init__, set_folderpath.
    assert (match o with
            | Some o0 => if decide (size o0 = 0) then default_options else o0
            | None => default_options end = default_options) as ->.
    { by destruct Ho as [-> | ->]. }
    destruct folder as [p|]; [|done].
    by destruct (Py.truthy p && os.path_exists disk p). }
  split_and!; [|done|done|..].
  { intros o Ho fo. unfold __init__, set_folderpath.
    rewrite decide_False by done. destruct fo as [p|]; [|done].
    by destruct (Py.truthy p && os.path_exists disk p). }
  all: intros p; apply Hkeep; rewrite Hinit; auto; by eexists.
Qed.

(** ** The backup folder *)

Lemma string_app_empty_r (s : string) : s +:+ "" = s.
Proof.
  induction s as [|a s IH]; [done|].
  change (String a (s +:+ "") = String a s). by rewrite IH.
Qed.

(** X7. The folder [backup] copies into. Only the last component of the
    [folder] argument counts: the backup folder is always that name under
    the folder path of the collection, whatever directory part the argument
    has. Without [newFolder] it is that path as it is; with [newFolder] it is
    that path with a counter appended (nothing for 0) and is not on disk. *)
Theorem backup_folder_ignores_directory_part (disk : Disk) (L : FileList) (folder : string) :
  let name := Py.rstrip "\" (os_path.join (_folderpath L) [(os_path.split folder).2]) in
  backup.folderpath disk L folder false = Some name
  ∧ (∃ k, backup.folderpath disk L folder true
          = Some (name +:+ match k with O => "" | S _ => Py.str k end)
        ∧ os.path_exists disk (name +:+ match k with O => "" | S _ => Py.str k end)
          = false)
  ∧ (∀ folder' newFolder,
       (os_path.split folder').2 = (os_path.split folder).2 →
       backup.folderpath disk L folder' newFolder
       = backup.folderpath disk L folder newFolder).
Proof.
  intros name.
  assert (∀ f nf, backup.folderpath disk L f nf
          = backup.unique disk (_folderpath L) [(os_path.split f).2] nf "") as Hfp.
  { intros f nf. unfold backup.folderpath. destruct (os_path.split f) as [bp bf].
    simpl. by rewrite orb_true_r. }
  split_and!.
  - rewrite Hfp. unfold backup.unique, backup.join. cbn [negb].
    change (String.eqb "" "0") with false. change (Py.truthy "") with false.
    cbn [negb]. by rewrite !string_app_empty_r.
  - rewrite Hfp.
    destruct (unique_returns disk (_folderpath L) [(os_path.split folder).2] "")
      as [found Hfound].
    rewrite Hfound. rewrite unique_new in Hfound.
    apply unique_loop_Some in Hfound as (k & _ & -> & Hfree & _).
    exists k. rewrite join_counter, string_app_empty_r in Hfree |- *. done.
  - intros folder' nf Heq. by rewrite !Hfp, Heq.
Qed.

(** ** Group detection: which groups there are *)

Section groups.

Variable new : Disk → string → Value → Value → AudioFile.
Variable eqs : AudioFile → string → option bool.

(** How [_search_for_join] returns on a collection with a folder path. *)
Lemma search_for_join_cases disk L groups L' :
  _folderpath L ≠ "" →
  _search_for_join new eqs disk L = Some (groups, L') →
  ∃ fs, files new disk L = Some (fs, L')
    ∧ ((length fs ≤ 1)%nat ∧ groups = ∅
       ∨ (1 < length fs)%nat
         ∧ ∃ d, search_loop eqs [] fs = Some d ∧ groups = search_result d).
Proof.
  intros Hfp. unfold _search_for_join, __len__.
  destruct (String.eqb_spec (_folderpath L) "") as [|_]; [done|]. simpl.
  destruct (files new disk L) as [[fs L1]|] eqn:Hf; simpl; [|done].
  destruct (Nat.leb_spec (length fs) 1) as [Hle|Hlt].
  { intros [= <- <-]. exists fs. split; [done|]. by left. }
  rewrite (files_cached new disk L fs L1 Hf) by (intros ->; simpl in Hlt; lia). simpl.
  destruct (search_loop eqs [] fs) as [d|] eqn:Hl; simpl; [|done].
  intros [= <- <-]. exists fs. split; [done|]. right. split; [done|]. by exists d.
Qed.

(** The tokens claimed under a base are the non-empty tokens of the listed
    files of that base. *)
Lemma claimed_tokens fs d :
  (∀ h c, h ∈ fs → eqs h (String c "") ≠ Some true) →
  search_loop eqs [] fs = Some d →
  (∀ f, f ∈ fs → channelnum f ≠ "" →
     ∃ v, dict_get (filebase f) d = Some v ∧ channelnum f ∈ v.*2)
  ∧ ∀ k v, dict_get k d = Some v →
      NoDup v.*2
      ∧ ∀ t, t ∈ v.*2 ↔ ∃ f, f ∈ fs ∧ filebase f = k ∧ channelnum f = t ∧ t ≠ "".
Proof.
  intros Hgate Hloop.
  pose proof (search_loop_claimed eqs fs [] [] d claimed_nil Hloop) as [_ Hd].
  pose proof (search_loop_first_wins eqs fs [] [] d Hgate first_wins_nil Hloop)
    as [Hall _].
  split; [done|]. intros k v Hv. destruct (Hd k v Hv) as (_ & Hnd & Hm).
  split; [done|]. intros t. split.
  - intros ([f ch] & -> & Hf)%list_elem_of_fmap. simpl.
    destruct (Hm f ch Hf) as (? & ? & ? & ?). by exists f.
  - intros (f & Hf & <- & <- & Hne).
    destruct (Hall f Hf Hne) as (w & Hw & Hin). by simplify_eq.
Qed.

Lemma two_distinct_elements {A} (l : list A) :
  NoDup l → (1 < length l)%nat → ∃ x y, x ∈ l ∧ y ∈ l ∧ x ≠ y.
Proof.
  destruct l as [|x [|y l]]; simpl; [lia|lia|].
  intros [Hx _]%NoDup_cons _. exists x, y.
  split_and!; [apply list_elem_of_here|apply list_elem_of_further, list_elem_of_here|].
  intros ->. apply Hx, list_elem_of_here.
Qed.

Lemma distinct_elements_length {A} (l : list A) x y :
  x ∈ l → y ∈ l → x ≠ y → (1 < length l)%nat.
Proof.
  destruct l as [|a [|b l]]; simpl; [by intros ?%elem_of_nil| |lia].
  intros ->%list_elem_of_singleton ->%list_elem_of_singleton. done.
Qed.

(** The tokens of a returned group, in the group's order. *)
Lemma group_tokens d k g :
  NoDup d.*1 →
  (∀ k v, dict_get k d = Some v → ∀ f ch, (f, ch) ∈ v → channelnum f = ch) →
  search_result d !! k = Some g →
  ∃ v, dict_get k d = Some v ∧ (1 < length v)%nat
    ∧ channelnum <$> g = (Py.sorted snd v).*2
    ∧ channelnum <$> g ≡ₚ v.*2.
Proof.
  intros Hnd Hm (v & Hv & Hlen & ->)%search_result_lookup; [|done].
  exists v. split_and!; [done|done| |].
  - apply tokens_of_members. intros f ch Hf. apply (Hm k v Hv).
    by rewrite sorted_perm in Hf.
  - rewrite tokens_of_members.
    + by rewrite sorted_perm.
    + intros f ch Hf. apply (Hm k v Hv). by rewrite sorted_perm in Hf.
Qed.

(** The groups of a run, described from the listing alone. *)
Lemma groups_characterised disk L groups L' :
  _folderpath L ≠ "" →
  _search_for_join new eqs disk L = Some (groups, L') →
  ∃ fs, files new disk L = Some (fs, L')
    ∧ ((∀ h c, h ∈ fs → eqs h (String c "") ≠ Some true) →
       ∀ k,
         (is_Some (groups !! k)
          ↔ ∃ f1 f2, f1 ∈ fs ∧ f2 ∈ fs ∧ filebase f1 = k ∧ filebase f2 = k
              ∧ channelnum f1 ≠ "" ∧ channelnum f2 ≠ ""
              ∧ channelnum f1 ≠ channelnum f2)
         ∧ ∀ g, groups !! k = Some g →
             NoDup (channelnum <$> g)
             ∧ StronglySorted String.le (channelnum <$> g)
             ∧ ∀ t, t ∈ channelnum <$> g
                    ↔ ∃ f, f ∈ fs ∧ filebase f = k ∧ channelnum f = t ∧ t ≠ "").
Proof.
  intros Hfp (fs & Hfiles & Hcase)%search_for_join_cases; [|done].
  exists fs. split; [done|]. intros Hgate k.
  destruct Hcase as [[Hle ->]|(Hlt & d & Hloop & ->)].
  { split; [|by intros g; rewrite lookup_empty].
    rewrite lookup_empty. split; [by intros [? ?]|].
    intros (f1 & f2 & H1 & H2 & _ & _ & _ & _ & Hne). exfalso.
    assert (f1 ≠ f2) as Hdiff by (by intros ->).
    pose proof (distinct_elements_length fs f1 f2 H1 H2 Hdiff). lia. }
  pose proof (search_loop_claimed eqs fs [] [] d claimed_nil Hloop) as [Hnd Hd].
  destruct (claimed_tokens fs d Hgate Hloop) as [Hall Htok].
  assert (∀ k v, dict_get k d = Some v → ∀ f ch, (f, ch) ∈ v → channelnum f = ch)
    as Hmem.
  { intros k0 v Hv f ch Hf. destruct (Hd k0 v Hv) as (_ & _ & Hm).
    by destruct (Hm f ch Hf) as (_ & _ & ? & _). }
  split.
  - split.
    + intros [g Hg]. destruct (group_tokens d k g Hnd Hmem Hg) as (v & Hv & Hlen & _).
      destruct (Htok k v Hv) as [Hndv Hin].
      destruct (two_distinct_elements v.*2 Hndv) as (t1 & t2 & Ht1 & Ht2 & Hne).
      { by rewrite length_fmap. }
      apply Hin in Ht1 as (f1 & ? & ? & ? & ?). apply Hin in Ht2 as (f2 & ? & ? & ? & ?).
      exists f1, f2. split_and!; [done..|congruence|congruence|congruence].
    + intros (f1 & f2 & H1 & H2 & Hk1 & Hk2 & Hn1 & Hn2 & Hne).
      destruct (Hall f1 H1 Hn1) as (v & Hv & Hin1).
      destruct (Hall f2 H2 Hn2) as (v' & Hv' & Hin2).
      rewrite Hk1 in Hv. rewrite Hk2, Hv in Hv'. injection Hv' as <-.
      pose proof (distinct_elements_length v.*2 _ _ Hin1 Hin2 Hne) as Hlen.
      rewrite length_fmap in Hlen.
      eexists. apply search_result_lookup; [done|]. by exists v.
  - intros g Hg.
    destruct (group_tokens d k g Hnd Hmem Hg) as (v & Hv & _ & Heq & Hperm).
    destruct (Htok k v Hv) as [Hndv Hin].
    split_and!.
    + by rewrite Hperm.
    + rewrite Heq. apply (StronglySorted_fmap snd (key_le snd)); [|apply sorted_sorted].
      intros x y Hxy. by apply Is_true_true.
    + intros t. rewrite Hperm. apply Hin.
Qed.

(** X8. Which groups there are. On a collection with a folder path, when no
    listed file compares equal to a one-character string, a base has a group
    exactly when two listed files of that base carry different non-empty
    channel tokens, and the tokens of the group are exactly the non-empty
    tokens of the listed files of that base. *)
Theorem join_groups_complete disk L groups L' :
  _folderpath L ≠ "" →
  _search_for_join new eqs disk L = Some (groups, L') →
  ∃ fs, files new disk L = Some (fs, L')
    ∧ ((∀ h c, h ∈ fs → eqs h (String c "") ≠ Some true) →
       ∀ k,
         (is_Some (groups !! k)
          ↔ ∃ f1 f2, f1 ∈ fs ∧ f2 ∈ fs ∧ filebase f1 = k ∧ filebase f2 = k
              ∧ channelnum f1 ≠ "" ∧ channelnum f2 ≠ ""
              ∧ channelnum f1 ≠ channelnum f2)
         ∧ ∀ g, groups !! k = Some g →
             ∀ t, t ∈ channelnum <$> g
                  ↔ ∃ f, f ∈ fs ∧ filebase f = k ∧ channelnum f = t ∧ t ≠ "").
Proof.
  intros Hfp Hrun. destruct (groups_characterised disk L groups L' Hfp Hrun)
    as (fs & Hfiles & Hspec).
  exists fs. split; [done|]. intros Hgate k. destruct (Hspec Hgate k) as [Hsome Hg].
  split; [done|]. intros g Hk. by destruct (Hg g Hk) as (_ & _ & ?).
Qed.


(** [f in flat_d] returns when the comparisons with one-character strings do. *)
Lemma py_in_returns f l :
  (∀ c, is_Some (eqs f (String c ""))) →
  (∀ y, y ∈ l → ∃ c, y = String c "") →
  is_Some (py_in eqs f l).
Proof.
  intros Heq. induction l as [|y l IH]; intros Hl; simpl; [by eexists|].
  destruct (Hl y) as [c ->]; [apply list_elem_of_here|].
  destruct (Heq c) as [[|] ->]; simpl; [by eexists|].
  apply IH. intros z Hz. by apply Hl, list_elem_of_further.
Qed.

Lemma search_loop_returns fs d :
  (∀ f c, f ∈ fs → is_Some (eqs f (String c ""))) →
  is_Some (search_loop eqs d fs).
Proof.
  revert d. induction fs as [|f fs IH]; intros d Heq; simpl; [by eexists|].
  assert (is_Some (search_step eqs d f)) as [d1 ->].
  { unfold search_step. destruct (Py.truthy (channelnum f)); simpl; [|by eexists].
    destruct (py_in_returns f (d.*1 ≫= Py.chars)) as [b ->].
    - intros c. apply Heq, list_elem_of_here.
    - intros y (s & Hy & _)%list_elem_of_bind. by eapply chars_one_character.
    - simpl. destruct b; [by eexists|].
      destruct (dict_get (filebase f) d); [case_bool_decide|]; by eexists. }
  simpl. apply IH. intros g c Hg. by apply Heq, list_elem_of_further.
Qed.

(** X10. On a collection with a folder path whose listing succeeds,
    [_search_for_join] returns no groups for at most one file, without
    comparing anything, and returns a mapping whenever no comparison of a
    listed file with a one-character string raises. *)
Theorem search_for_join_returns disk L fs L1 :
  files new disk L = Some (fs, L1) →
  _folderpath L ≠ "" →
  ((length fs ≤ 1)%nat → _search_for_join new eqs disk L = Some (∅, L1))
  ∧ ((∀ f c, f ∈ fs → is_Some (eqs f (String c ""))) →
     ∃ groups, _search_for_join new eqs disk L = Some (groups, L1)).
Proof.
  intros Hfiles Hfp. unfold _search_for_join, __len__.
  destruct (String.eqb_spec (_folderpath L) "") as [|_]; [done|]. simpl.
  rewrite Hfiles. simpl. split.
  - intros Hle. by destruct (Nat.leb_spec (length fs) 1); [|lia].
  - intros Heq. destruct (Nat.leb_spec (length fs) 1) as [Hle|Hlt]; [by eexists|].
    rewrite (files_cached new disk L fs L1 Hfiles) by (intros ->; simpl in Hlt; lia).
    simpl. destruct (search_loop_returns fs [] Heq) as [d ->]. simpl. by eexists.
Qed.

End groups.

(** ** The further properties on [take_folder] *)

(** [is_audio_file_ignores_case] on two spellings of one name. *)
Lemma wav_in_any_case :
  Py.upper "take.Wav" = Py.upper "TAKE.wAV"
  ∧ _is_audio_file "take.Wav" = _is_audio_file "TAKE.wAV".
Proof.
  split; [done|]. by apply (is_audio_file_ignores_case "take.Wav" "TAKE.wAV").
Defined.

(** [is_audio_file_plain_name] on [take.2.WaV]. *)
Lemma take_2_WaV_is_audio :
  occurs "/" "take.2" = false ∧ occurs "/" "WaV" = false ∧ occurs "." "WaV" = false
  ∧ _is_audio_file ("take.2" +:+ "." +:+ "WaV")
    = negb (Py.all_char "." "take.2")
      && bool_decide (Py.upper "WaV" = "WAV" ∨ Py.upper "WaV" = "WAVE").
Proof.
  split_and!; [done|done|done|].
  by apply (is_audio_file_plain_name "take.2" "WaV").
Defined.

Definition take_paths : list string :=
  ["proj/solo.1.wav"; "proj/notes.wav"; "proj/take.10.wav"; "proj/take.2.wav";
   "proj/take.R.wav"].

(** [iterate_files_sound] on [take_folder]: [readme.txt] is left out. *)
Lemma take_paths_sound :
  _iterate_files take_folder "proj" = Some take_paths
  ∧ take_folder !! "proj" = Some Dir
  ∧ NoDup take_paths
  ∧ ∀ p, p ∈ take_paths →
      is_Some (take_folder !! p)
      ∧ ∃ n, p = os_path.join "proj" [n] ∧ _is_audio_file n = true.
Proof.
  split; [by vm_compute|].
  apply (iterate_files_sound take_folder "proj" take_paths). by vm_compute.
Defined.

Definition take_names : list string :=
  ["solo.1.wav"; "notes.wav"; "readme.txt"; "take.10.wav"; "take.2.wav"; "take.R.wav"].

(** [files_need_thresholds_per_file] on [take_folder]. *)
Lemma take_files_need_thresholds :
  _files take_list = []
  ∧ os.listdir take_folder (_folderpath take_list) = Some take_names
  ∧ (∀ nt et,
       _options take_list !! "null_threshold" = Some nt →
       _options take_list !! "empty_threshold" = Some et →
       fst <$> files take_objects take_folder take_list
       = Some ((λ n, take_objects take_folder
                       (os_path.join (_folderpath take_list) [n]) nt et)
                 <$> filter (λ n, _is_audio_file n) take_names)).
Proof.
  split; [done|]. split; [by vm_compute|].
  apply (files_need_thresholds_per_file take_objects take_folder take_list take_names);
    by vm_compute.
Defined.

(** [join_groups_complete] on [take_folder]. *)
Lemma take_groups_complete :
  _folderpath take_list ≠ ""
  ∧ _search_for_join take_objects eq_by_path take_folder take_list
    = Some (take_groups, take_listed)
  ∧ ∃ fs, files take_objects take_folder take_list = Some (fs, take_listed)
      ∧ ((∀ h c, h ∈ fs → eq_by_path h (String c "") ≠ Some true) →
         ∀ k,
           (is_Some (take_groups !! k)
            ↔ ∃ f1 f2, f1 ∈ fs ∧ f2 ∈ fs ∧ filebase f1 = k ∧ filebase f2 = k
                ∧ channelnum f1 ≠ "" ∧ channelnum f2 ≠ ""
                ∧ channelnum f1 ≠ channelnum f2)
           ∧ ∀ g, take_groups !! k = Some g →
               ∀ t, t ∈ channelnum <$> g
                    ↔ ∃ f, f ∈ fs ∧ filebase f = k ∧ channelnum f = t ∧ t ≠ "").
Proof.
  assert (_folderpath take_list ≠ "") as Hfp by done.
  split; [done|]. split; [by vm_compute|].
  apply (join_groups_complete take_objects eq_by_path take_folder take_list
           take_groups take_listed Hfp).
  by vm_compute.
Defined.




(** [search_for_join_returns] on [take_folder]. *)
Lemma take_detection_returns :
  files take_objects take_folder take_list = Some (take_listing, take_listed)
  ∧ _folderpath take_list ≠ ""
  ∧ ((length take_listing ≤ 1)%nat →
     _search_for_join take_objects eq_by_path take_folder take_list
     = Some (∅, take_listed))
  ∧ ((∀ f c, f ∈ take_listing → is_Some (eq_by_path f (String c ""))) →
     ∃ groups, _search_for_join take_objects eq_by_path take_folder take_list
               = Some (groups, take_listed)).
Proof.
  assert (files take_objects take_folder take_list = Some (take_listing, take_listed))
    as Hfiles by (by vm_compute).
  assert (_folderpath take_list ≠ "") as Hfp by done.
  split; [exact Hfiles|]. split; [exact Hfp|].
  exact (search_for_join_returns take_objects eq_by_path take_folder take_list
           take_listing take_listed Hfiles Hfp).
Defined.

(** ** The paths of a listed folder *)

(** [FileList.filepaths]: the [filepath] of every file of [files]. *)
Definition filepaths (new : Disk → string → Value → Value → AudioFile)
    (disk : Disk) (L : FileList) : option (list string * FileList) :=
  (λ r : list AudioFile * FileList, (filepath <$> r.1, r.2)) <$> files new disk L.

(** X11. With a constructor that stores its path, the [filepaths] of a
    collection with an empty cache are the paths [_iterate_files] lists for
    its folder, in that order, and [len] is their number; [filepaths] raises
    exactly when the listing does. *)
Theorem filepaths_are_listed_paths (new : Disk → string → Value → Value → AudioFile)
    (disk : Disk) (L : FileList) (nt et : Value) :
  (∀ d p a b, filepath (new d p a b) = p) →
  _files L = [] →
  _options L !! "null_threshold" = Some nt →
  _options L !! "empty_threshold" = Some et →
  fst <$> filepaths new disk L = _iterate_files disk (_folderpath L)
  ∧ (_folderpath L ≠ "" →
     fst <$> __len__ new disk L = length <$> _iterate_files disk (_folderpath L)).
Proof.
  intros Hpath Hcache Hnt Het.
  assert (files new disk L
          = (λ l, ((λ p, new disk p nt et) <$> l,
                   mkFileList (_options L) ((λ p, new disk p nt et) <$> l)
                     (_joinlists L) (_flat_joinlists L) (_folderpath L)))
              <$> _iterate_files disk (_folderpath L)) as Hfiles.
  { unfold files, _search_folder. rewrite Hcache.
    destruct (_iterate_files disk (_folderpath L)) as [l|]; simpl; [|done].
    unfold _create_analysis. rewrite Hnt, Het. simpl. by rewrite mapM_total. }
  split.
  - unfold filepaths. rewrite Hfiles.
    destruct (_iterate_files disk (_folderpath L)) as [l|]; simpl; [|done].
    f_equal. rewrite <-list_fmap_compose. rewrite <-(list_fmap_id l) at 2.
    apply list_fmap_ext. intros i p _. simpl. apply Hpath.
  - intros Hfp. unfold __len__.
    destruct (String.eqb_spec (_folderpath L) "") as [|_]; [done|]. simpl.
    rewrite Hfiles.
    destruct (_iterate_files disk (_folderpath L)) as [l|]; simpl; [|done].
    by rewrite length_fmap.
Qed.

Lemma rpartition_decompose c s h t :
  Py.rpartition c s = Some (h, t) → s = h +:+ String c t.
Proof.
  revert h. induction s as [|a s IH]; intros h; simpl; [done|].
  destruct (Py.rpartition c s) as [[h' t']|].
  - intros [= <- <-]. change (String a s = String a (h' +:+ String c t')).
    f_equal. by apply IH.
  - destruct (Ascii.eqb_spec a c) as [->|]; [|done]. by intros [= <- <-].
Qed.

Lemma upper_length s : String.length (Py.upper s) = String.length s.
Proof. induction s as [|a s IH]; simpl; [done|]. by rewrite IH. Qed.

(** A name [_is_audio_file] accepts has a stem and an extension of at least
    four characters. *)
Lemma audio_name_length n : _is_audio_file n = true → (4 < String.length n)%nat.
Proof.
  unfold _is_audio_file. cbv zeta.
  intros Hn. apply bool_decide_eq_true_1 in Hn. revert Hn.
  unfold os_path.splitext. intros Hn.
  assert (∀ e, Py.upper e ∈ Py.upper <$> extensions → (4 ≤ String.length e)%nat) as Hext.
  { intros e He. rewrite <-upper_length.
    change (Py.upper <$> extensions) with [".WAV"; ".WAVE"] in He.
    repeat (apply elem_of_cons in He as [->|He]); simpl; [lia|lia|].
    by apply elem_of_nil in He. }
  destruct (Py.rpartition "/" n) as [[h t]|] eqn:Hsep.
  - apply rpartition_decompose in Hsep as ->.
    destruct (Py.rpartition "." t) as [[stem e]|] eqn:Hdot.
    2:{ cbn [snd] in Hn. apply Hext in Hn. simpl in Hn. lia. }
    apply rpartition_decompose in Hdot as ->.
    destruct (Py.all_char "." stem); cbn [snd] in Hn.
    { apply Hext in Hn. simpl in Hn. lia. }
    apply Hext in Hn. rewrite !string_length_app in *. simpl in *.
    rewrite string_length_app. simpl. lia.
  - destruct (Py.rpartition "." n) as [[stem e]|] eqn:Hdot.
    2:{ cbn [snd] in Hn. apply Hext in Hn. simpl in Hn. lia. }
    apply rpartition_decompose in Hdot as ->.
    destruct (Py.all_char "." stem) eqn:Hall; cbn [snd] in Hn.
    { apply Hext in Hn. simpl in Hn. lia. }
    apply Hext in Hn. rewrite !string_length_app in *. simpl in *.
    destruct stem; [done|]. simpl. lia.
Qed.

Lemma join_length a b : (String.length b ≤ String.length (os_path.join a [b]))%nat.
Proof.
  unfold os_path.join. simpl.
  destruct (Py.startswith "/" b); [done|].
  destruct (negb (Py.truthy a) || Py.endswith "/" a);
    rewrite !string_length_app; lia.
Qed.

(** Every path [files] hands to a constructor that stores it has more than
    four characters. *)
Lemma listed_path_length (new : Disk → string → Value → Value → AudioFile)
    (disk : Disk) (L : FileList) (fs : list AudioFile) (L' : FileList) (f : AudioFile) :
  (∀ d p a b, filepath (new d p a b) = p) →
  _files L = [] →
  files new disk L = Some (fs, L') →
  f ∈ fs → (4 < String.length (filepath f))%nat.
Proof.
  intros Hpath Hcache Hfiles Hf.
  unfold files, _search_folder in Hfiles. rewrite Hcache in Hfiles.
  destruct (_iterate_files disk (_folderpath L)) as [l|] eqn:Hit; simpl in Hfiles; [|done].
  destruct (mapM _ l) as [objs|] eqn:Hmap; simpl in Hfiles; [|done].
  injection Hfiles as <- <-.
  rewrite mapM_Some in Hmap.
  apply list_elem_of_lookup in Hf as [i Hi].
  destruct (Forall2_lookup_r _ _ _ _ _ Hmap Hi) as (p & Hp & Hcreate).
  unfold _create_analysis in Hcreate.
  destruct (_options L !! "null_threshold") as [nt|]; simpl in Hcreate; [|done].
  destruct (_options L !! "empty_threshold") as [et|]; simpl in Hcreate; [|done].
  injection Hcreate as <-. rewrite Hpath.
  unfold _iterate_files, _list_audio_files in Hit.
  destruct (os.listdir disk (_folderpath L)) as [names|]; simpl in Hit; [|done].
  injection Hit as <-.
  apply list_lookup_fmap_Some in Hp as (n & -> & Hn).
  apply list_elem_of_lookup_2, list_elem_of_filter in Hn as [Hn%Is_true_true _].
  pose proof (audio_name_length n Hn). pose proof (join_length (_folderpath L) n).
  unfold os_path.join in *. simpl in *. lia.
Qed.

Lemma py_in_long_path (f : AudioFile) (l : list string) :
  (1 < String.length (filepath f))%nat →
  (∀ y, y ∈ l → ∃ c, y = String c "") →
  py_in eq_by_path f l = Some false.
Proof.
  intros Hlen. induction l as [|y l IH]; intros Hl; simpl; [done|].
  destruct (Hl y) as [c ->]; [apply list_elem_of_here|].
  destruct (String.eqb_spec (filepath f) (String c "")) as [Heq|_].
  { rewrite Heq in Hlen. simpl in Hlen. lia. }
  apply IH. intros z Hz. by apply Hl, list_elem_of_further.
Qed.

(** X12. A freshly listed file whose constructor stores its path has a path
    of more than four characters, so under equality by path it never equals a
    one-character string: whatever the dictionary [d] built so far, the test
    [f in flat_d] of [_search_for_join] is false and skips no listed file. *)
Theorem listed_files_pass_membership_test
    (new : Disk → string → Value → Value → AudioFile)
    (disk : Disk) (L : FileList) (fs : list AudioFile) (L' : FileList) :
  (∀ d p a b, filepath (new d p a b) = p) →
  _files L = [] →
  files new disk L = Some (fs, L') →
  ∀ f, f ∈ fs →
    (4 < String.length (filepath f))%nat
    ∧ (∀ c, eq_by_path f (String c "") = Some false)
    ∧ ∀ d : list (string * list (AudioFile * string)),
        py_in eq_by_path f (d.*1 ≫= Py.chars) = Some false
        ∧ (Py.truthy (channelnum f) = true →
           ∃ d', search_step eq_by_path d f = Some d'
             ∧ (d' = d ↔ ∃ w, dict_get (filebase f) d = Some w ∧ channelnum f ∈ w.*2)
             ∧ ∃ w', dict_get (filebase f) d' = Some w' ∧ channelnum f ∈ w'.*2).
Proof.
  intros Hpath Hcache Hfiles f Hf.
  pose proof (listed_path_length new disk L fs L' f Hpath Hcache Hfiles Hf) as Hlen.
  assert (∀ d : list (string * list (AudioFile * string)),
            py_in eq_by_path f (d.*1 ≫= Py.chars) = Some false) as Hin.
  { intros d. apply py_in_long_path; [lia|].
    intros y (k & Hy & _)%list_elem_of_bind. by apply chars_one_character in Hy. }
  split; [done|]. split.
  { intros c. unfold eq_by_path. f_equal.
    destruct (String.eqb_spec (filepath f) (String c "")) as [Heq|]; [|done].
    rewrite Heq in Hlen. simpl in Hlen. lia. }
  intros d. split; [apply Hin|]. intros Hch.
  unfold search_step. rewrite Hch. cbn [negb]. cbv zeta. rewrite Hin. simpl.
  destruct (dict_get (filebase f) d) as [w|] eqn:Hget.
  - destruct (bool_decide_reflect (channelnum f ∈ w.*2)) as [Hw|Hw].
    + exists d. split; [done|]. split; [|by exists w].
      split; [intros _; by exists w|done].
    + eexists. split; [done|]. split; [split|].
      * intros Hd. apply (f_equal (dict_get (filebase f))) in Hd.
        rewrite dict_get_set, decide_True, Hget in Hd by done.
        injection Hd as Hd. apply (f_equal length) in Hd.
        rewrite length_app in Hd. simpl in Hd. lia.
      * intros (w0 & [= <-] & Hw0). done.
      * eexists. rewrite dict_get_set, decide_True by done. split; [done|].
        rewrite fmap_app. apply elem_of_app. right. apply list_elem_of_here.
  - eexists. split; [done|]. split; [split|].
    + intros Hd. apply (f_equal (dict_get (filebase f))) in Hd.
      by rewrite dict_get_set, decide_True, Hget in Hd.
    + by intros (w0 & [=] & _).
    + eexists. rewrite dict_get_set, decide_True by done. split; [done|].
      apply list_elem_of_here.
Qed.

(** A constructor that stores its path, as [test_file_names] has it; on the
    paths of [take_folder] it yields the objects of [take_objects]. *)
Definition path_objects (disk : Disk) (p : string) (nt et : Value) : AudioFile :=
  let f := take_objects disk p nt et in
  mkAudioFile p (dirname f) (extension f) (root f) (filebase f) (channelnum f)
    (file f) (null_threshold f) (empty_threshold f) (_action f) (join_files f).

(** [filepaths_are_listed_paths] on [take_folder]. *)
Lemma take_filepaths :
  fst <$> filepaths path_objects take_folder take_list = Some take_paths
  ∧ fst <$> __len__ path_objects take_folder take_list = Some 5.
Proof.
  pose proof (filepaths_are_listed_paths path_objects take_folder take_list
                (VNum (-100)) (VNum (-100))
                (λ _ _ _ _, eq_refl) eq_refl ltac:(by vm_compute) ltac:(by vm_compute))
    as [H1 H2].
  split; [exact H1|]. by apply H2.
Defined.

(** [listed_files_pass_membership_test] on [take.2] of [take_folder]. *)
Lemma take_2_passes_membership_test :
  files path_objects take_folder take_list = Some (take_listing, take_listed)
  ∧ (4 < String.length (filepath take_2))%nat
  ∧ (∀ c, eq_by_path take_2 (String c "") = Some false)
  ∧ ∀ d : list (string * list (AudioFile * string)),
      py_in eq_by_path take_2 (d.*1 ≫= Py.chars) = Some false
      ∧ (Py.truthy (channelnum take_2) = true →
         ∃ d', search_step eq_by_path d take_2 = Some d'
           ∧ (d' = d ↔ ∃ w, dict_get (filebase take_2) d = Some w
                          ∧ channelnum take_2 ∈ w.*2)
           ∧ ∃ w', dict_get (filebase take_2) d' = Some w'
                   ∧ channelnum take_2 ∈ w'.*2).
Proof.
  split; [by vm_compute|].
  apply (listed_files_pass_membership_test path_objects take_folder take_list
           take_listing take_listed); [done|done|by vm_compute|].
  do 3 apply list_elem_of_further. apply list_elem_of_here.
Defined.
